(** * PDF outline extractor: heading heuristics of [pdf_outline_extractor.py]

    A shallow embedding of the class [PDFOutlineExtractor] and of the
    properties its specification states about it.

    Modelling conventions.
    - Python [float] quantities (font sizes, coordinates, page widths) are
      exact rationals [Q]; the literals [0.1], [0.7], [0.4] are [1/10],
      [7/10], [4/10].  Rounding is not modelled.
    - Python [str] values are lists of 8-bit characters read as the code
      points U+0000..U+00FF; [str.strip], [str.lower], [str.isupper] and the
      classes [\s], [\d] of module [re] are the Unicode ones restricted to
      that range.
    - An exception is a value of [exn]; a call that may raise returns
      [exc A].
    - The instance attributes [self.doc], [self.page_width],
      [self.page_height] are a record threaded through the methods. *)

From Stdlib Require Import ZArith QArith Qabs String Ascii List Bool Arith Lia.
From Stdlib Require Import Sorting.Sorted Sorting.Permutation Lqa.
Import ListNotations.

Set Implicit Arguments.

Local Open Scope bool_scope.
Local Open Scope list_scope.
Local Open Scope nat_scope.

(* ================================================================== *)
(** ** Exceptions *)

Inductive exn : Type :=
| ValueError (msg : string)
| KeyError (key : string)
| IndexError (msg : string)
| RuntimeError (msg : string).

Inductive exc (A : Type) : Type :=
| Ok (a : A)
| Raise (e : exn).

Arguments Ok {A} a.
Arguments Raise {A} e.

Definition bind {A B : Type} (m : exc A) (k : A -> exc B) : exc B :=
  match m with
  | Ok a => k a
  | Raise e => Raise e
  end.

Notation "x <- m ;; k" := (bind m (fun x => k))
  (at level 61, m at next level, right associativity).

(* ================================================================== *)
(** ** Text *)

Module Text.

Definition str := list ascii.

(** A literal. *)
Definition lit (s : string) : str := list_ascii_of_string s.

Definition code (c : ascii) : nat := nat_of_ascii c.

Definition in_range (lo hi : nat) (c : ascii) : bool :=
  (lo <=? code c) && (code c <=? hi).

(** [str.isspace] on one character: U+0009..U+000D, U+001C..U+0020,
    U+0085, U+00A0. *)
Definition is_space (c : ascii) : bool :=
  in_range 9 13 c || in_range 28 32 c || (code c =? 133) || (code c =? 160).

(** Decimal digits (class [\d]). *)
Definition is_digit (c : ascii) : bool := in_range 48 57 c.

(** The classes [[A-Z]] and [[a-z]]. *)
Definition is_AZ (c : ascii) : bool := in_range 65 90 c.
Definition is_az (c : ascii) : bool := in_range 97 122 c.

(** Unicode property Uppercase below U+0100. *)
Definition is_upper (c : ascii) : bool :=
  in_range 65 90 c || in_range 192 214 c || in_range 216 222 c.

(** Unicode property Lowercase below U+0100. *)
Definition is_lower (c : ascii) : bool :=
  in_range 97 122 c || (code c =? 170) || (code c =? 181) || (code c =? 186)
  || in_range 223 246 c || in_range 248 255 c.

Definition lower_char (c : ascii) : ascii :=
  if is_upper c then ascii_of_nat (code c + 32) else c.

(** [s.lower()] *)
Definition lower (s : str) : str := map lower_char s.

(** [s.isupper()]: no lowercase character and at least one uppercase one. *)
Definition isupper (s : str) : bool :=
  negb (existsb is_lower s) && existsb is_upper s.

Fixpoint lstrip (s : str) : str :=
  match s with
  | c :: s' => if is_space c then lstrip s' else s
  | [] => []
  end.

Definition rstrip (s : str) : str := rev (lstrip (rev s)).

(** [s.strip()] *)
Definition strip (s : str) : str := rstrip (lstrip s).

Definition eqb (a b : str) : bool :=
  if list_eq_dec ascii_dec a b then true else false.

Fixpoint prefix (p s : str) : bool :=
  match p, s with
  | [], _ => true
  | a :: p', b :: s' => Ascii.eqb a b && prefix p' s'
  | _ :: _, [] => false
  end.

(** [p in s] for strings. *)
Fixpoint contains (p s : str) : bool :=
  prefix p s ||
  match s with
  | [] => false
  | _ :: s' => contains p s'
  end.

Definition newline : ascii := ascii_of_nat 10.

(** [s.split('\n')]: the pieces between line feeds; never empty. *)
Fixpoint split_lines (s : str) : list str :=
  match s with
  | [] => [[]]
  | c :: s' =>
      if Ascii.eqb c newline then [] :: split_lines s'
      else match split_lines s' with
           | l :: ls => (c :: l) :: ls
           | [] => [[c]]
           end
  end.

End Text.

Import Text.

(* ================================================================== *)
(** ** Regular expressions ([re.match])

    The patterns of the source use anchors, character classes,
    concatenation, [+] and [*].  [exec] is a backtracking matcher in
    continuation-passing style: [exec n r k s] tries [r] at the head of the
    remaining input [s] of a subject of length [n] and hands what is left to
    [k].  A repetition only iterates after its body has consumed input. *)

Module Regex.

Inductive regex : Type :=
| Bol                          (* ^ *)
| Eol                          (* $ *)
| Cls (p : ascii -> bool)      (* one character of a class *)
| Cat (r1 r2 : regex)
| Star (r : regex).

Definition Plus (r : regex) : regex := Cat r (Star r).

Fixpoint star_loop (step : (str -> bool) -> str -> bool) (k : str -> bool)
         (fuel : nat) (s : str) : bool :=
  match fuel with
  | 0 => k s
  | S fuel' =>
      step (fun s' => (length s' <? length s) && star_loop step k fuel' s') s
      || k s
  end.

(** [$] holds at the end of the subject and before a final line feed. *)
Definition at_eol (s : str) : bool :=
  match s with
  | [] => true
  | [c] => Ascii.eqb c newline
  | _ => false
  end.

Fixpoint exec (n : nat) (r : regex) (k : str -> bool) (s : str) : bool :=
  match r with
  | Bol => (length s =? n) && k s
  | Eol => at_eol s && k s
  | Cls p => match s with
             | c :: s' => p c && k s'
             | [] => false
             end
  | Cat r1 r2 => exec n r1 (exec n r2 k) s
  | Star r' => star_loop (exec n r') k (length s) s
  end.

(** [re.match(r, s)] as a truth value: some prefix of [s] matches [r]. *)
Definition re_match (r : regex) (s : str) : bool :=
  exec (length s) r (fun _ => true) s.

(** Declarative meaning: [Matches n r a b] says that [r] matches the piece
    [a] when [b] is what follows it in a subject of length [n]. *)
Inductive Matches (n : nat) : regex -> str -> str -> Prop :=
| MBol s : length s = n -> Matches n Bol [] s
| MEol s : at_eol s = true -> Matches n Eol [] s
| MCls p c s : p c = true -> Matches n (Cls p) [c] s
| MCat r1 r2 a b s :
    Matches n r1 a (b ++ s) -> Matches n r2 b s ->
    Matches n (Cat r1 r2) (a ++ b) s
| MStar0 r s : Matches n (Star r) [] s
| MStarS r a b s :
    a <> [] -> Matches n r a (b ++ s) -> Matches n (Star r) b s ->
    Matches n (Star r) (a ++ b) s.

Definition accepts (n : nat) (r : regex) (k : str -> bool) (s : str) : Prop :=
  exists a b, s = a ++ b /\ Matches n r a b /\ k b = true.

End Regex.

(* ================================================================== *)
(** ** Stable sorting ([sorted], [list.sort])

    Python sorts stably and compares keys with [<] only.  On keys that [<]
    orders totally the result is determined, and insertion from the right
    computes it.  With [reverse=True] the order is descending and elements
    with equal keys still keep their original order. *)

Module PySort.

Section Sort.
Variables (A K : Type) (key : A -> K) (lt : K -> K -> bool).

Fixpoint insert (x : A) (l : list A) : list A :=
  match l with
  | [] => [x]
  | y :: l' =>
      if lt (key y) (key x) then y :: insert x l' else x :: y :: l'
  end.

Fixpoint sort (l : list A) : list A :=
  match l with
  | [] => []
  | x :: l' => insert x (sort l')
  end.
End Sort.

(** [sorted(l, key=key, reverse=reverse)] *)
Definition sorted {A K} (key : A -> K) (lt : K -> K -> bool) (reverse : bool)
    (l : list A) : list A :=
  if reverse then sort key (fun a b => lt b a) l else sort key lt l.

End PySort.

(** Comparison of floats and of the key tuples [(page, order)]. *)
Definition Qltb (a b : Q) : bool := negb (Qle_bool b a).

Definition pair_ltb (a b : nat * nat) : bool :=
  (fst a <? fst b) || ((fst a =? fst b) && (snd a <? snd b)).

(* ================================================================== *)
(** ** Data model *)

(** What PyMuPDF returns for a page: [page.get_text("dict")["blocks"]]. *)
Record BBox : Type := { x0 : Q; y0 : Q; x1 : Q; y1 : Q }.

Record Span : Type := {
  span_text : str;      (* span["text"] *)
  span_size : Q;        (* span["size"] *)
  span_font : str;      (* span["font"] *)
  span_flags : Z;       (* span["flags"] *)
  span_bbox : BBox      (* span["bbox"] = (x0, y0, x1, y1) *)
}.

Record Line : Type := { spans : list Span }.

(** An image block has no key ["lines"]. *)
Record Block : Type := { lines : option (list Line) }.

(** A rendered page stands for what the OCR engine answers on it. *)
Record Pixmap : Type := { image_to_string : exc str }.

Record Page : Type := {
  rect_width : Q;
  rect_height : Q;
  get_text_blocks : exc (list Block);
  get_pixmap : exc Pixmap
}.

Definition Document := list Page.

(** The file behind [pdf_path]: what [fitz.open(pdf_path)] yields. *)
Definition PdfFile := exc Document.

Record HeadingInfo : Type := {
  level : str;
  text : str;
  page : nat;
  font_size : Q;
  is_bold : bool;
  is_centered : bool
}.

Definition with_level (h : HeadingInfo) (l : str) : HeadingInfo :=
  {| level := l; text := text h; page := page h; font_size := font_size h;
     is_bold := is_bold h; is_centered := is_centered h |}.

(** One dictionary [{"level": .., "text": .., "page": ..}] of the outline. *)
Record Entry : Type := { entry_level : str; entry_text : str; entry_page : nat }.

Record DocumentOutline : Type := { title : str; outline : list Entry }.

(** The extractor object. *)
Record PDFOutlineExtractor : Type := {
  doc : option Document;
  page_width : Q;
  page_height : Q
}.

(** [PDFOutlineExtractor()] *)
Definition __init__ : PDFOutlineExtractor :=
  {| doc := None; page_width := 0; page_height := 0 |}.

(** Methods: state of [self] in, state of [self] and outcome out. *)
Definition M (A : Type) : Type :=
  PDFOutlineExtractor -> PDFOutlineExtractor * exc A.

Definition ret {A} (a : A) : M A := fun self => (self, Ok a).
Definition raise {A} (e : exn) : M A := fun self => (self, Raise e).
Definition lift {A} (m : exc A) : M A := fun self => (self, m).
Definition get_self : M PDFOutlineExtractor := fun self => (self, Ok self).
Definition set_doc (d : Document) : M unit :=
  fun self => ({| doc := Some d; page_width := page_width self;
                  page_height := page_height self |}, Ok tt).
Definition set_page_size (w h : Q) : M unit :=
  fun self => ({| doc := doc self; page_width := w; page_height := h |}, Ok tt).

Definition mbind {A B} (m : M A) (k : A -> M B) : M B :=
  fun self =>
    match m self with
    | (self', Ok a) => k a self'
    | (self', Raise e) => (self', Raise e)
    end.

(** [try: m  except Exception as e: handler e] *)
Definition try_except {A} (m : M A) (handler : exn -> M A) : M A :=
  fun self =>
    match m self with
    | (self', Ok a) => (self', Ok a)
    | (self', Raise e) => handler e self'
    end.

Notation "x <~ m ;; k" := (mbind m (fun x => k))
  (at level 61, m at next level, right associativity).

(** A [for] loop whose body may raise. *)
Fixpoint for_each {A S} (l : list A) (body : A -> S -> M S) (acc : S) : M S :=
  match l with
  | [] => ret acc
  | x :: l' => acc' <~ body x acc ;; for_each l' body acc'
  end.

(** [enumerate(l)], from a start index. *)
Fixpoint enumerate {A} (i : nat) (l : list A) : list (nat * A) :=
  match l with
  | [] => []
  | x :: l' => (i, x) :: enumerate (S i) l'
  end.

(** The spans of a page in the order the three nested loops visit them. *)
Definition block_spans (b : Block) : list Span :=
  match lines b with
  | Some ls => flat_map spans ls
  | None => []
  end.

Definition page_spans (blocks : list Block) : list Span :=
  flat_map block_spans blocks.

(* ================================================================== *)
(** ** Layout pipeline *)

Definition tolerance_default : Q := (1 # 10)%Q.

(** [_is_text_centered(bbox, page_width, tolerance=0.1)] *)
Definition _is_text_centered (bbox : BBox) (page_width : Q) (tolerance : Q)
  : bool :=
  let text_x := ((x0 bbox + x1 bbox) / 2)%Q in
  let page_center := (page_width / 2)%Q in
  Qltb (Qabs (text_x - page_center)) (page_width * tolerance).

(** ["bold" in span["font"].lower() or span["flags"] & 2**4], as a truth
    value. *)
Definition span_is_bold (span : Span) : bool :=
  contains (lit "bold") (lower (span_font span))
  || negb (Z.land (span_flags span) (2 ^ 4) =? 0)%Z.

(** Body of the loop of [_extract_title] for one span. *)
Definition title_step (self : PDFOutlineExtractor)
    (title_candidates : list (str * Q)) (span : Span) : list (str * Q) :=
  let text := strip (span_text span) in
  match text with
  | [] => title_candidates
  | _ :: _ =>
      let font_size := span_size span in
      let is_bold := span_is_bold span in
      let is_centered :=
        _is_text_centered (span_bbox span) (page_width self) tolerance_default in
      if Qltb 14 font_size && is_bold && is_centered
      then title_candidates ++ [(text, font_size)]
      else title_candidates
  end.

Definition untitled : str := lit "Untitled Document".

(** [_extract_title(first_page)] *)
Definition _extract_title (first_page : Page) : M str :=
  self <~ get_self ;;
  blocks <~ lift (get_text_blocks first_page) ;;
  let title_candidates := fold_left (title_step self) (page_spans blocks) [] in
  match title_candidates with
  | _ :: _ =>
      let title_candidates := PySort.sorted snd Qltb true title_candidates in
      match nth_error title_candidates 0 with
      | Some c => ret (fst c)
      | None => raise (IndexError "list index out of range")
      end
  | [] => ret untitled
  end.

(** Body of the loop of [_extract_headings_from_page] for one span. *)
Definition heading_step (self : PDFOutlineExtractor) (page_num : nat)
    (headings : list HeadingInfo) (span : Span) : list HeadingInfo :=
  let text := strip (span_text span) in
  if match text with [] => true | _ => false end || (length text <? 3)
  then headings
  else if 100 <? length text then headings
  else
    let font_size := span_size span in
    let is_bold := span_is_bold span in
    let is_centered :=
      _is_text_centered (span_bbox span) (page_width self) tolerance_default in
    if Qle_bool 10 font_size && (is_bold || is_centered)
    then headings ++ [ {| level := []; text := text; page := page_num;
                          font_size := font_size; is_bold := is_bold;
                          is_centered := is_centered |} ]
    else headings.

(** [_extract_headings_from_page(page, page_num)] *)
Definition _extract_headings_from_page (page : Page) (page_num : nat)
  : M (list HeadingInfo) :=
  self <~ get_self ;;
  blocks <~ lift (get_text_blocks page) ;;
  ret (fold_left (heading_step self page_num) (page_spans blocks) []).

(** [max(l)] and [min(l)]: the first largest, the first smallest. *)
Definition py_max (l : list Q) : exc Q :=
  match l with
  | [] => Raise (ValueError "max() arg is an empty sequence")
  | x :: xs => Ok (fold_left (fun m y => if Qltb m y then y else m) xs x)
  end.

Definition py_min (l : list Q) : exc Q :=
  match l with
  | [] => Raise (ValueError "min() arg is an empty sequence")
  | x :: xs => Ok (fold_left (fun m y => if Qltb y m then y else m) xs x)
  end.

Definition H1 : str := lit "H1".
Definition H2 : str := lit "H2".
Definition H3 : str := lit "H3".

(** The dictionary [{"H1": 1, "H2": 2, "H3": 3}]. *)
Definition level_order (l : str) : option nat :=
  if Text.eqb l H1 then Some 1
  else if Text.eqb l H2 then Some 2
  else if Text.eqb l H3 then Some 3
  else None.

(** Branch [size_range == 0]. *)
Definition level_by_format (h : HeadingInfo) : str :=
  if is_bold h && is_centered h then H1
  else if is_bold h then H2
  else H3.

(** Branch [size_range != 0]. *)
Definition level_by_size (min_size size_range : Q) (h : HeadingInfo) : str :=
  let normalized_size := ((font_size h - min_size) / size_range)%Q in
  if Qltb (7 # 10) normalized_size then H1
  else if Qltb (4 # 10) normalized_size then H2
  else H3.

(** [lambda h: (h.page, {"H1": 1, "H2": 2, "H3": 3}[h.level])] *)
Definition page_level_key (h : HeadingInfo) : exc (nat * nat) :=
  match level_order (level h) with
  | Some n => Ok (page h, n)
  | None => Raise (KeyError (string_of_list_ascii (level h)))
  end.

(** Keys are computed once per element, then the list is sorted on them. *)
Fixpoint decorate {A K} (key : A -> exc K) (l : list A) : exc (list (K * A)) :=
  match l with
  | [] => Ok []
  | x :: l' =>
      k <- key x ;;
      rest <- decorate key l' ;;
      Ok ((k, x) :: rest)
  end.

(** [_classify_headings(headings)] *)
Definition _classify_headings (headings : list HeadingInfo)
  : exc (list HeadingInfo) :=
  match headings with
  | [] => Ok []
  | _ :: _ =>
      let sorted_headings := PySort.sorted font_size Qltb true headings in
      let font_sizes := map font_size sorted_headings in
      max_size <- py_max font_sizes ;;
      min_size <- py_min font_sizes ;;
      let size_range := (max_size - min_size)%Q in
      let sorted_headings :=
        if Qeq_bool size_range 0
        then map (fun h => with_level h (level_by_format h)) sorted_headings
        else map (fun h => with_level h (level_by_size min_size size_range h))
                 sorted_headings in
      decorated <- decorate page_level_key sorted_headings ;;
      Ok (map snd (PySort.sort fst pair_ltb decorated))
  end.

Definition to_entry (h : HeadingInfo) : Entry :=
  {| entry_level := level h; entry_text := text h; entry_page := page h |}.

Definition empty_pdf : exn := ValueError "PDF is empty or corrupted".

(** The loop over the pages of [_extract_layout_based]. *)
Definition collect_headings (d : Document) : M (list HeadingInfo) :=
  for_each (enumerate 0 d)
    (fun '(page_num, page) headings =>
       page_headings <~ _extract_headings_from_page page (page_num + 1) ;;
       ret (headings ++ page_headings))
    [].

(** [_extract_layout_based(pdf_path)] *)
Definition _extract_layout_based (pdf : PdfFile) : M DocumentOutline :=
  d <~ lift pdf ;;
  _ <~ set_doc d ;;
  match d with
  | [] => raise empty_pdf
  | first_page :: _ =>
      _ <~ set_page_size (rect_width first_page) (rect_height first_page) ;;
      title <~ _extract_title first_page ;;
      headings <~ collect_headings d ;;
      classified_headings <~ lift (_classify_headings headings) ;;
      ret {| title := title; outline := map to_entry classified_headings |}
  end.

(* ================================================================== *)
(** ** OCR pipeline *)

Import Regex.

Definition lit_char (c : ascii) : regex := Cls (Ascii.eqb c).

Fixpoint cat (rs : list regex) (last : regex) : regex :=
  match rs with
  | [] => last
  | r :: rs' => Cat r (cat rs' last)
  end.

(** [^\d+$] *)
Definition just_numbers : regex := cat [Bol; Plus (Cls is_digit)] Eol.

(** [^[A-Z][A-Z\s]+$] *)
Definition all_caps : regex :=
  cat [Bol; Cls is_AZ; Plus (Cls (fun c => is_AZ c || is_space c))] Eol.

(** [^\d+\.\s+[A-Z]] *)
Definition numbered_heading : regex :=
  cat [Bol; Plus (Cls is_digit); lit_char "."; Plus (Cls is_space)] (Cls is_AZ).

(** [^[A-Z][a-z]+(\s+[A-Z][a-z]+)*$] *)
Definition title_case : regex :=
  cat [Bol; Cls is_AZ; Plus (Cls is_az);
       Star (cat [Plus (Cls is_space); Cls is_AZ] (Plus (Cls is_az)))] Eol.

(** [^\d+\.\s+] *)
Definition numbered_prefix : regex :=
  cat [Bol; Plus (Cls is_digit); lit_char "."] (Plus (Cls is_space)).

Definition heading_patterns : list regex :=
  [all_caps; numbered_heading; title_case].

Definition non_headings : list str := [lit "page"; lit "continued"; lit "..."].

(** [_looks_like_heading(text)] *)
Definition _looks_like_heading (text : str) : bool :=
  if re_match just_numbers text then false
  else if (length text <? 3) || (80 <? length text) then false
  else if existsb (Text.eqb (lower text)) non_headings then false
  else existsb (fun pattern => re_match pattern text) heading_patterns.

(** [_classify_ocr_heading(text)] *)
Definition _classify_ocr_heading (text : str) : str :=
  if isupper text && (length text <? 30) then H1
  else if re_match numbered_prefix text then H2
  else H3.

(** One dictionary [{"text": .., "page": ..}] of [all_text]. *)
Record TextLine : Type := { line_text : str; line_page : nat }.

(** [_detect_headings_from_ocr(text_lines)] *)
Definition _detect_headings_from_ocr (text_lines : list TextLine)
  : list Entry :=
  fold_left
    (fun outline line_info =>
       let text := line_text line_info in
       let page := line_page line_info in
       if _looks_like_heading text
       then let level := _classify_ocr_heading text in
            outline ++ [ {| entry_level := level; entry_text := text;
                            entry_page := page |} ]
       else outline)
    text_lines [].

Definition truthy (s : str) : bool :=
  match s with [] => false | _ :: _ => true end.

(** The first loop over [lines]: what it appends to [all_text]. *)
Definition collect_lines (page_num : nat) (lines : list str)
    (all_text : list TextLine) : list TextLine :=
  fold_left
    (fun all_text line =>
       let line := strip line in
       if truthy line && (2 <? length line)
       then all_text ++ [ {| line_text := line; line_page := page_num + 1 |} ]
       else all_text)
    lines all_text.

(** The second loop over [lines]: the first substantial line, if any. *)
Definition first_substantial (lines : list str) : option str :=
  find (fun line => truthy line && (3 <? length line) && (length line <? 100))
       (map strip lines).

(** Body of the loop over the pages of [_extract_ocr_based]. *)
Definition ocr_page (page_num : nat) (page : Page)
    (st : list TextLine * str) : M (list TextLine * str) :=
  let '(all_text, title) := st in
  pix <~ lift (get_pixmap page) ;;
  match image_to_string pix with
  | Ok ocr_text =>
      let lines := split_lines ocr_text in
      let all_text := collect_lines page_num lines all_text in
      let title :=
        if (page_num =? 0) && match lines with [] => false | _ => true end
        then match first_substantial lines with
             | Some line => line
             | None => title
             end
        else title in
      ret (all_text, title)
  | Raise _ => ret (all_text, title)
  end.

(** [_extract_ocr_based(pdf_path)] *)
Definition _extract_ocr_based (pdf : PdfFile) : M DocumentOutline :=
  d <~ lift pdf ;;
  _ <~ set_doc d ;;
  match d with
  | [] => raise empty_pdf
  | _ :: _ =>
      st <~ for_each (enumerate 0 d)
              (fun '(page_num, page) st => ocr_page page_num page st)
              ([], untitled) ;;
      let '(all_text, title) := st in
      let outline := _detect_headings_from_ocr all_text in
      ret {| title := title; outline := outline |}
  end.

(* ================================================================== *)
(** ** Orchestrator *)

(** [extract_outline(pdf_path)] *)
Definition extract_outline (pdf : PdfFile) : M DocumentOutline :=
  try_except (_extract_layout_based pdf)
             (fun _ => _extract_ocr_based pdf).

(* ################################################################## *)
(** * Properties *)

(** ** Comparisons on [Q] *)

Lemma Qltb_lt (a b : Q) : Qltb a b = true <-> (a < b)%Q.
Proof.
  unfold Qltb. rewrite negb_true_iff, <- not_true_iff_false, Qle_bool_iff.
  split; [apply Qnot_le_lt|apply Qlt_not_le].
Qed.

Lemma Qltb_ge (a b : Q) : Qltb a b = false <-> (b <= a)%Q.
Proof.
  unfold Qltb. rewrite negb_false_iff. apply Qle_bool_iff.
Qed.


(** ** Loops that append *)

Lemma fold_left_append {A B} (f : A -> list B) (step : list B -> A -> list B) :
  (forall acc x, step acc x = acc ++ f x) ->
  forall l acc, fold_left step l acc = acc ++ flat_map f l.
Proof.
  intros Hstep l; induction l as [|x l IH]; intros acc; simpl.
  - now rewrite app_nil_r.
  - rewrite IH, Hstep, <- app_assoc. reflexivity.
Qed.

(** ** Stable sorting *)

Module PySortFacts.
Import PySort.

Section Facts.
Variables (A K : Type) (key : A -> K) (lt : K -> K -> bool).

Lemma insert_perm x l : Permutation (insert key lt x l) (x :: l).
Proof.
  induction l as [|y l IH]; simpl; [reflexivity|].
  destruct (lt (key y) (key x)); [|reflexivity].
  rewrite IH. apply perm_swap.
Qed.

Lemma sort_perm l : Permutation (sort key lt l) l.
Proof.
  induction l as [|x l IH]; simpl; [reflexivity|].
  rewrite insert_perm. now constructor.
Qed.

Lemma sort_In l x : In x (sort key lt l) <-> In x l.
Proof.
  split; apply Permutation_in;
    [apply sort_perm | apply Permutation_sym, sort_perm].
Qed.

Lemma sort_nil_inv l : sort key lt l = [] -> l = [].
Proof.
  intros H. apply Permutation_nil. rewrite <- H. apply sort_perm.
Qed.

(** The order [lt] is a strict weak order on the keys. *)
Hypothesis lt_trans :
  forall a b c, lt a b = true -> lt b c = true -> lt a c = true.
Hypothesis lt_cotrans :
  forall a b c, lt a b = false -> lt b c = false -> lt a c = false.
Hypothesis lt_asym : forall a b, lt a b = true -> lt b a = false.




(** The head of a sorted list is the first least element of the input:
    what precedes it is strictly larger in the order, what follows it is
    not smaller. *)
Lemma sort_head l c rest :
  sort key lt l = c :: rest ->
  exists l1 l2, l = l1 ++ c :: l2 /\
    Forall (fun x => lt (key c) (key x) = true) l1 /\
    Forall (fun x => lt (key x) (key c) = false) l2.
Proof.
  revert c rest. induction l as [|x l IH]; intros c rest H; [discriminate|].
  simpl in H. destruct (sort key lt l) as [|y r] eqn:E.
  - apply sort_nil_inv in E. subst l. simpl in H. injection H as <- <-.
    exists [], []. repeat split; constructor.
  - destruct (IH y r eq_refl) as (l1 & l2 & -> & H1 & H2).
    simpl in H. destruct (lt (key y) (key x)) eqn:Eyx.
    + injection H as <- <-. exists (x :: l1), l2. repeat split; auto.
    + injection H as <- <-. exists [], (l1 ++ y :: l2). repeat split; auto.
      rewrite Forall_forall in *. intros z Hz.
      apply in_app_or in Hz as [Hz|[<-|Hz]].
      * destruct (lt (key z) (key x)) eqn:Ezx; auto.
        rewrite (lt_trans (H1 z Hz) Ezx) in Eyx. discriminate.
      * exact Eyx.
      * apply lt_cotrans with (key y); auto.
Qed.
End Facts.

End PySortFacts.

(** ** Lists *)

Lemma flat_map_filter {A B} (p : A -> bool) (f : A -> B) (l : list A) :
  flat_map (fun x => if p x then [f x] else []) l = map f (filter p l).
Proof.
  induction l as [|x l IH]; simpl; [reflexivity|].
  destruct (p x); simpl; now rewrite IH.
Qed.

Lemma map_filter_split {A B} (p : A -> bool) (f : A -> B) l l1 c l2 :
  map f (filter p l) = l1 ++ c :: l2 ->
  exists s1 s s2, l = s1 ++ s :: s2 /\ p s = true /\ f s = c /\
    map f (filter p s1) = l1 /\ map f (filter p s2) = l2.
Proof.
  revert l1. induction l as [|x l IH]; intros l1 H; simpl in H.
  - destruct l1; discriminate.
  - destruct (p x) eqn:E.
    + destruct l1 as [|y l1]; simpl in H; injection H as Hx Hl.
      * exists [], x, l. simpl. auto.
      * destruct (IH _ Hl) as (s1 & s & s2 & -> & Hp & Hf & H1 & H2).
        exists (x :: s1), s, s2. simpl. rewrite E. simpl.
        repeat split; auto. now rewrite Hx, H1.
    + destruct (IH _ H) as (s1 & s & s2 & -> & Hp & Hf & H1 & H2).
      exists (x :: s1), s, s2. simpl. rewrite E. auto.
Qed.

(** ** The layout pipeline: candidates *)

(** The centering test in terms of [<]. *)
Definition centered_on (w : Q) (s : Span) : Prop :=
  (Qabs ((x0 (span_bbox s) + x1 (span_bbox s)) / 2 - w / 2) < w * (1 # 10))%Q.

Lemma is_text_centered_iff w s :
  _is_text_centered (span_bbox s) w tolerance_default = true <-> centered_on w s.
Proof. unfold _is_text_centered, centered_on. apply Qltb_lt. Qed.

(** The test [_extract_title] applies to a span, for page width [w]. *)
Definition title_candidate (w : Q) (s : Span) : bool :=
  truthy (strip (span_text s)) && Qltb 14 (span_size s) && span_is_bold s
  && _is_text_centered (span_bbox s) w tolerance_default.

Lemma title_candidate_iff w s :
  title_candidate w s = true <->
  strip (span_text s) <> [] /\ (14 < span_size s)%Q /\
  span_is_bold s = true /\ centered_on w s.
Proof.
  unfold title_candidate.
  rewrite !andb_true_iff, Qltb_lt, is_text_centered_iff.
  destruct (strip (span_text s)); simpl; intuition congruence.
Qed.

Lemma title_step_flat self spans :
  fold_left (title_step self) spans [] =
  map (fun s => (strip (span_text s), span_size s))
      (filter (title_candidate (page_width self)) spans).
Proof.
  rewrite <- flat_map_filter.
  rewrite fold_left_append with
    (f := fun s => if title_candidate (page_width self) s
                   then [(strip (span_text s), span_size s)] else []);
    [reflexivity|].
  intros acc s. unfold title_step, title_candidate.
  destruct (strip (span_text s)); simpl; [now rewrite app_nil_r|].
  destruct (Qltb 14 (span_size s) && span_is_bold s &&
            _is_text_centered (span_bbox s) (page_width self) tolerance_default);
    [reflexivity|now rewrite app_nil_r].
Qed.

(** The test [_extract_headings_from_page] applies to a span, for page
    width [w]. *)
Definition heading_candidate (w : Q) (s : Span) : bool :=
  let t := strip (span_text s) in
  (3 <=? length t) && (length t <=? 100) && Qle_bool 10 (span_size s)
  && (span_is_bold s || _is_text_centered (span_bbox s) w tolerance_default).

Definition heading_of (w : Q) (page_num : nat) (s : Span) : HeadingInfo :=
  {| level := []; text := strip (span_text s); page := page_num;
     font_size := span_size s; is_bold := span_is_bold s;
     is_centered := _is_text_centered (span_bbox s) w tolerance_default |}.

Lemma heading_candidate_iff w s :
  heading_candidate w s = true <->
  3 <= length (strip (span_text s)) <= 100 /\
  (10 <= span_size s)%Q /\ (span_is_bold s = true \/ centered_on w s).
Proof.
  unfold heading_candidate.
  rewrite !andb_true_iff, orb_true_iff, Qle_bool_iff, is_text_centered_iff,
    !Nat.leb_le.
  tauto.
Qed.

Lemma heading_step_spec self page_num acc s :
  heading_step self page_num acc s =
  acc ++ (if heading_candidate (page_width self) s
          then [heading_of (page_width self) page_num s] else []).
Proof.
  unfold heading_step, heading_candidate, heading_of.
  set (t := strip (span_text s)).
  destruct (Nat.leb_spec 3 (length t)) as [H3|H3].
  - assert (Ht : match t with [] => true | _ :: _ => false end = false)
      by (destruct t; [simpl in H3; lia|reflexivity]).
    rewrite Ht. simpl.
    destruct (Nat.ltb_spec (length t) 3); [lia|].
    destruct (Nat.leb_spec (length t) 100), (Nat.ltb_spec 100 (length t));
      try lia; simpl; [|now rewrite app_nil_r].
    destruct (Qle_bool 10 (span_size s) &&
              (span_is_bold s ||
               _is_text_centered (span_bbox s) (page_width self)
                 tolerance_default));
      [reflexivity|now rewrite app_nil_r].
  - simpl. destruct (Nat.ltb_spec (length t) 3); [|lia].
    rewrite orb_true_r. now rewrite app_nil_r.
Qed.

Lemma heading_step_flat self page_num spans :
  fold_left (heading_step self page_num) spans [] =
  map (heading_of (page_width self) page_num)
      (filter (heading_candidate (page_width self)) spans).
Proof.
  rewrite <- flat_map_filter.
  apply fold_left_append with
    (f := fun s => if heading_candidate (page_width self) s
                   then [heading_of (page_width self) page_num s] else []).
  intros acc s. apply heading_step_spec.
Qed.

(** ** The layout pipeline: classification *)

Definition fold_max (x : Q) (xs : list Q) : Q :=
  fold_left (fun m y => if Qltb m y then y else m) xs x.

Definition fold_min (x : Q) (xs : list Q) : Q :=
  fold_left (fun m y => if Qltb y m then y else m) xs x.

Lemma fold_max_bound xs : forall x,
  (x <= fold_max x xs)%Q /\ forall y, In y xs -> (y <= fold_max x xs)%Q.
Proof.
  unfold fold_max. induction xs as [|a xs IH]; intros x; simpl.
  - split; [apply Qle_refl|tauto].
  - destruct (IH (if Qltb x a then a else x)) as [H1 H2].
    destruct (Qltb x a) eqn:E.
    + apply Qltb_lt in E. split.
      * eapply Qle_trans; [apply Qlt_le_weak, E|exact H1].
      * intros y [<-|Hy]; auto.
    + apply Qltb_ge in E. split; auto.
      intros y [<-|Hy]; auto. eapply Qle_trans; eauto.
Qed.

Lemma fold_min_bound xs : forall x,
  (fold_min x xs <= x)%Q /\ forall y, In y xs -> (fold_min x xs <= y)%Q.
Proof.
  unfold fold_min. induction xs as [|a xs IH]; intros x; simpl.
  - split; [apply Qle_refl|tauto].
  - destruct (IH (if Qltb a x then a else x)) as [H1 H2].
    destruct (Qltb a x) eqn:E.
    + apply Qltb_lt in E. split.
      * eapply Qle_trans; [exact H1|apply Qlt_le_weak, E].
      * intros y [<-|Hy]; auto.
    + apply Qltb_ge in E. split; auto.
      intros y [<-|Hy]; auto. eapply Qle_trans; eauto.
Qed.

(** The position of a level in the final sort, [0] for a string that is no
    level. *)
Definition level_rank (l : str) : nat :=
  match level_order l with
  | Some n => n
  | None => 0
  end.

Definition is_level (l : str) : Prop := l = H1 \/ l = H2 \/ l = H3.

Lemma is_level_order l :
  is_level l -> level_order l = Some (level_rank l) /\ 1 <= level_rank l <= 3.
Proof.
  intros [->|[->| ->]]; vm_compute; repeat split; lia.
Qed.

Lemma level_by_format_is_level h : is_level (level_by_format h).
Proof.
  unfold level_by_format, is_level.
  destruct (is_bold h && is_centered h); auto. destruct (is_bold h); auto.
Qed.

Lemma level_by_size_is_level mn rg h : is_level (level_by_size mn rg h).
Proof.
  unfold level_by_size, is_level.
  destruct (Qltb (7 # 10) _); auto. destruct (Qltb (4 # 10) _); auto.
Qed.

(** The level the classifier gives a candidate, from the smallest size and
    the size range of the call. *)
Definition assign (min_size size_range : Q) (h : HeadingInfo) : HeadingInfo :=
  with_level h (if Qeq_bool size_range 0 then level_by_format h
                else level_by_size min_size size_range h).

Lemma assign_is_level mn rg h : is_level (level (assign mn rg h)).
Proof.
  unfold assign. simpl.
  destruct (Qeq_bool rg 0);
    [apply level_by_format_is_level|apply level_by_size_is_level].
Qed.

Definition keyed (h : HeadingInfo) : (nat * nat) * HeadingInfo :=
  ((page h, level_rank (level h)), h).

Lemma decorate_levels l :
  Forall (fun h => is_level (level h)) l ->
  decorate page_level_key l = Ok (map keyed l).
Proof.
  induction 1 as [|h l Hh Hl IH]; simpl; [reflexivity|].
  unfold page_level_key at 1.
  destruct (is_level_order Hh) as [E _]. rewrite E. simpl.
  rewrite IH. reflexivity.
Qed.

(** What a call of the classifier on a non-empty list computes. *)
Definition classified (mn mx : Q) (hs : list HeadingInfo) : list HeadingInfo :=
  map snd (PySort.sort fst pair_ltb
             (map keyed (map (assign mn (mx - mn))
                             (PySort.sorted font_size Qltb true hs)))).

Lemma classify_unfold h0 hs :
  exists mn mx,
    _classify_headings (h0 :: hs) = Ok (classified mn mx (h0 :: hs)) /\
    forall h, In h (h0 :: hs) -> (mn <= font_size h <= mx)%Q.
Proof.
  unfold _classify_headings, classified.
  set (S := PySort.sorted font_size Qltb true (h0 :: hs)).
  assert (HS : forall h, In h (h0 :: hs) -> In h S)
    by (intros h Hh; apply PySortFacts.sort_In; exact Hh).
  destruct S as [|s S'] eqn:ES; [destruct (HS h0); left; reflexivity|].
  simpl map at 1 2. cbn [py_max py_min bind].
  exists (fold_min (font_size s) (map font_size S')),
         (fold_max (font_size s) (map font_size S')).
  fold (fold_max (font_size s) (map font_size S')).
  fold (fold_min (font_size s) (map font_size S')).
  set (mn := fold_min _ _). set (mx := fold_max _ _).
  split.
  - assert (E : (if Qeq_bool (mx - mn) 0
                 then map (fun h => with_level h (level_by_format h)) (s :: S')
                 else map (fun h => with_level h
                                      (level_by_size mn (mx - mn) h)) (s :: S'))
                = map (assign mn (mx - mn)) (s :: S')).
    { unfold assign. destruct (Qeq_bool (mx - mn) 0); reflexivity. }
    rewrite E. rewrite decorate_levels; [reflexivity|].
    apply Forall_forall. intros h Hh. apply in_map_iff in Hh as (h' & <- & _).
    apply assign_is_level.
  - intros h Hh. apply HS in Hh.
    destruct (fold_min_bound (map font_size S') (font_size s)) as [m1 m2].
    destruct (fold_max_bound (map font_size S') (font_size s)) as [M1 M2].
    destruct Hh as [<-|Hh]; [split; assumption|].
    split; [apply m2|apply M2]; apply in_map; exact Hh.
Qed.

Lemma classified_In mn mx hs a :
  In a (classified mn mx hs) <->
  exists a0, In a0 hs /\ a = assign mn (mx - mn) a0.
Proof.
  unfold classified. rewrite in_map_iff. split.
  - intros ((k & h) & <- & H). apply PySortFacts.sort_In in H.
    apply in_map_iff in H as (h' & E & H). unfold keyed in E.
    injection E as _ <-.
    apply in_map_iff in H as (a0 & <- & H).
    apply PySortFacts.sort_In in H. exists a0. auto.
  - intros (a0 & H & ->). exists (keyed (assign mn (mx - mn) a0)).
    split; [reflexivity|].
    apply PySortFacts.sort_In. apply in_map, in_map.
    apply PySortFacts.sort_In. exact H.
Qed.

(** The classifier always returns. *)
Lemma classify_total hs : exists out, _classify_headings hs = Ok out.
Proof.
  destruct hs as [|h0 hs]; [exists []; reflexivity|].
  destruct (classify_unfold h0 hs) as (mn & mx & E & _). eauto.
Qed.

Lemma normalized_lt mn rg x y :
  (0 < rg)%Q -> (x < y)%Q -> ((x - mn) / rg < (y - mn) / rg)%Q.
Proof.
  intros Hrg Hxy. unfold Qdiv. apply Qmult_lt_compat_r.
  - apply Qinv_lt_0_compat, Hrg.
  - unfold Qminus. apply Qplus_lt_l. exact Hxy.
Qed.

Lemma level_by_size_monotone mn rg a b :
  (0 < rg)%Q -> (font_size b < font_size a)%Q ->
  level_rank (level_by_size mn rg a) <= level_rank (level_by_size mn rg b).
Proof.
  intros Hrg Hlt. pose proof (normalized_lt mn Hrg Hlt) as Hn.
  unfold level_by_size.
  destruct (Qltb (7 # 10) ((font_size a - mn) / rg)) eqn:A1;
  destruct (Qltb (7 # 10) ((font_size b - mn) / rg)) eqn:B1;
  destruct (Qltb (4 # 10) ((font_size a - mn) / rg)) eqn:A2;
  destruct (Qltb (4 # 10) ((font_size b - mn) / rg)) eqn:B2;
  try (vm_compute; lia);
  repeat match goal with
         | H : Qltb _ _ = true |- _ => apply Qltb_lt in H
         | H : Qltb _ _ = false |- _ => apply Qltb_ge in H
         end;
  exfalso.
  all: try (apply (Qlt_irrefl (7 # 10));
            eapply Qlt_le_trans; [|exact A1];
            eapply Qlt_trans; [exact B1|exact Hn]).
  all: try (apply (Qlt_irrefl (4 # 10));
            eapply Qlt_le_trans; [|exact A2];
            eapply Qlt_trans; [exact B2|exact Hn]).
Qed.

(** C2.  In one call of the classifier, a candidate with a strictly larger
    font size than another never gets a level of lower rank: both get one of
    H1, H2, H3, and the position of the larger one's level in the order
    H1 < H2 < H3 is at most that of the smaller one's. *)
Theorem classify_monotone_in_font_size hs out a b :
  _classify_headings hs = Ok out ->
  In a out -> In b out ->
  (font_size b < font_size a)%Q ->
  is_level (level a) /\ is_level (level b) /\
  level_rank (level a) <= level_rank (level b).
Proof.
  intros Hc Ha Hb Hlt.
  destruct hs as [|h0 hs]; [injection Hc as <-; destruct Ha|].
  destruct (classify_unfold h0 hs) as (mn & mx & E & Hbound).
  rewrite E in Hc. injection Hc as <-.
  apply classified_In in Ha as (a0 & Ha0 & ->).
  apply classified_In in Hb as (b0 & Hb0 & ->).
  split; [apply assign_is_level|]. split; [apply assign_is_level|].
  unfold assign in *. simpl in *.
  assert (Hrg : (0 < mx - mn)%Q).
  { destruct (Hbound _ Ha0) as [_ Hmx]. destruct (Hbound _ Hb0) as [Hmn _].
    unfold Qminus. rewrite <- Qlt_minus_iff.
    eapply Qle_lt_trans; [exact Hmn|]. eapply Qlt_le_trans; eauto. }
  destruct (Qeq_bool (mx - mn) 0) eqn:Z.
  - apply Qeq_bool_iff in Z. rewrite Z in Hrg. now apply Qlt_irrefl in Hrg.
  - now apply level_by_size_monotone.
Qed.

Definition heading_ex (p : nat) (sz : Q) : HeadingInfo :=
  {| level := []; text := lit "Heading"; page := p; font_size := sz;
     is_bold := true; is_centered := false |}.

Lemma classify_monotone_in_font_size_witness :
  is_level H1 /\ is_level H3 /\ level_rank H1 <= level_rank H3.
Proof.
  apply (@classify_monotone_in_font_size
           [heading_ex 1 10; heading_ex 1 20; heading_ex 2 15]
           [with_level (heading_ex 1 20) H1; with_level (heading_ex 1 10) H3;
            with_level (heading_ex 2 15) H2]
           (with_level (heading_ex 1 20) H1)
           (with_level (heading_ex 1 10) H3)).
  - vm_compute. reflexivity.
  - simpl. auto.
  - simpl. auto.
  - reflexivity.
Defined.

(** ** The layout pipeline: final order *)






(** Page first, then level, H1 before H2 before H3. *)
Definition entry_le (e1 e2 : Entry) : Prop :=
  entry_page e1 < entry_page e2 \/
  (entry_page e1 = entry_page e2 /\
   level_rank (entry_level e1) <= level_rank (entry_level e2)).





(** ** Sample documents *)

Definition mk_span (t : string) (sz : Q) (font : string) (xa xb : Q) : Span :=
  {| span_text := lit t; span_size := sz; span_font := lit font;
     span_flags := 0%Z;
     span_bbox := {| x0 := xa; y0 := 0; x1 := xb; y1 := sz |} |}.

Definition blank_pixmap : Pixmap := {| image_to_string := Ok [] |}.

(** A page of width [w] with one block of one line of spans. *)
Definition text_page (w : Q) (ss : list Span) : Page :=
  {| rect_width := w; rect_height := 800;
     get_text_blocks := Ok [ {| lines := Some [ {| spans := ss |} ] |} ];
     get_pixmap := Ok blank_pixmap |}.

(** A page whose text extraction fails and that an OCR engine reads. *)
Definition scanned_page (w : Q) (ocr_text : str) : Page :=
  {| rect_width := w; rect_height := 800;
     get_text_blocks := Raise (RuntimeError "cannot extract text");
     get_pixmap := Ok {| image_to_string := Ok ocr_text |} |}.

(** A small note above a large heading, both bold, on one page. *)
Definition two_headings : Document :=
  [ text_page 600 [ mk_span "Remarks" 10 "Times-Bold" 50 120;
                    mk_span "Overview" 20 "Times-Bold" 50 200 ] ].

Definition entry (l : str) (t : string) (p : nat) : Entry :=
  {| entry_level := l; entry_text := lit t; entry_page := p |}.


(** ** The layout pipeline: title *)

Lemma Qgtb_trans (a b c : Q) :
  Qltb b a = true -> Qltb c b = true -> Qltb c a = true.
Proof. rewrite !Qltb_lt. intros; eapply Qlt_trans; eauto. Qed.

Lemma Qgtb_cotrans (a b c : Q) :
  Qltb b a = false -> Qltb c b = false -> Qltb c a = false.
Proof. rewrite !Qltb_ge. intros; eapply Qle_trans; eauto. Qed.

Lemma filter_nil_inv {A} (p : A -> bool) l :
  filter p l = [] -> forall x, In x l -> p x = false.
Proof.
  induction l as [|y l IH]; simpl; [tauto|].
  destruct (p y) eqn:E; [discriminate|].
  intros H x [<-|Hx]; auto.
Qed.

(** [s] is the first of the title candidates of largest font size. *)
Definition first_largest (w : Q) (ss : list Span) (s : Span) : Prop :=
  exists l1 l2, ss = l1 ++ s :: l2 /\ title_candidate w s = true /\
    (forall x, In x l1 -> title_candidate w x = true ->
               (span_size x < span_size s)%Q) /\
    (forall x, In x l2 -> title_candidate w x = true ->
               (span_size x <= span_size s)%Q).

Definition title_of (w : Q) (ss : list Span) (t : str) : Prop :=
  ((forall s, In s ss -> title_candidate w s = false) /\ t = untitled) \/
  (exists s, first_largest w ss s /\ t = strip (span_text s)).

Lemma extract_title_run self p blocks :
  get_text_blocks p = Ok blocks ->
  exists t, _extract_title p self = (self, Ok t) /\
            title_of (page_width self) (page_spans blocks) t.
Proof.
  intros Hb. unfold _extract_title, mbind, get_self, lift. rewrite Hb.
  rewrite title_step_flat.
  set (w := page_width self). set (ss := page_spans blocks).
  set (f := fun s : Span => (strip (span_text s), span_size s)).
  destruct (map f (filter (title_candidate w) ss)) as [|c0 C] eqn:EC.
  - exists untitled. split; [reflexivity|]. left. split; [|reflexivity].
    apply filter_nil_inv. now apply map_eq_nil in EC.
  - unfold PySort.sorted.
    destruct (PySort.sort snd (fun a b => Qltb b a) (c0 :: C))
      as [|c rest] eqn:ES.
    + apply PySortFacts.sort_nil_inv in ES. discriminate.
    + exists (fst c). split; [reflexivity|]. right.
      pose proof (@PySortFacts.sort_head _ _ snd (fun a b => Qltb b a)
                    Qgtb_trans Qgtb_cotrans _ _ _ ES)
        as (l1 & l2 & E & H1 & H2).
      rewrite <- EC in E.
      apply map_filter_split in E as (s1 & s & s2 & Ess & Hs & Hf & E1 & E2).
      exists s. split; [|now rewrite <- Hf].
      exists s1, s2. repeat split; auto.
      * intros x Hx Hc. rewrite Forall_forall in H1.
        assert (Hin : In (f x) l1).
        { rewrite <- E1. apply in_map, filter_In. auto. }
        apply H1 in Hin. rewrite <- Hf in Hin. apply Qltb_lt in Hin. exact Hin.
      * intros x Hx Hc. rewrite Forall_forall in H2.
        assert (Hin : In (f x) l2).
        { rewrite <- E2. apply in_map, filter_In. auto. }
        apply H2 in Hin. rewrite <- Hf in Hin. apply Qltb_ge in Hin. exact Hin.
Qed.

(** The state in which [_extract_layout_based] runs its stages. *)
Definition layout_state (first : Page) (rest : list Page)
  : PDFOutlineExtractor :=
  {| doc := Some (first :: rest); page_width := rect_width first;
     page_height := rect_height first |}.

Lemma layout_title_inv first rest self self' out :
  _extract_layout_based (Ok (first :: rest)) self = (self', Ok out) ->
  exists s1, _extract_title first (layout_state first rest)
             = (s1, Ok (title out)).
Proof.
  unfold _extract_layout_based, mbind, lift, set_doc, set_page_size, raise, ret.
  match goal with
  | |- context [_extract_title first ?s] =>
      change s with (layout_state first rest)
  end.
  destruct (_extract_title first _) as [s1 [t|e]]; [|discriminate].
  destruct (collect_headings (first :: rest) s1) as [s2 [hs|e]]; [|discriminate].
  destruct (_classify_headings hs) as [cl|e] eqn:E; [|discriminate].
  intros H. injection H as _ <-. exists s1. reflexivity.
Qed.

(** The title of a layout extraction, when there is one. *)
Definition layout_title (pdf : PdfFile) (self : PDFOutlineExtractor)
  : exc str :=
  out <- snd (_extract_layout_based pdf self) ;; Ok (title out).

(** The title rule read without the guard on empty text: every span with
    font size > 14 that is bold and centered is a candidate, and the title
    is the text ([txt]) of the first candidate of largest size. *)
Definition unguarded_title_candidate (w : Q) (s : Span) : bool :=
  Qltb 14 (span_size s) && span_is_bold s
  && _is_text_centered (span_bbox s) w tolerance_default.

Definition unguarded_title (txt : Span -> str) (w : Q) (ss : list Span) : str :=
  match PySort.sorted span_size Qltb true
          (filter (unguarded_title_candidate w) ss) with
  | s :: _ => txt s
  | [] => untitled
  end.

Definition unguarded_title_rule (txt : Span -> str) (d : Document) : Prop :=
  forall first rest blocks self,
    d = first :: rest -> get_text_blocks first = Ok blocks ->
    layout_title (Ok d) self
    = Ok (unguarded_title txt (rect_width first) (page_spans blocks)).

(** A first page whose largest bold centered span holds only blanks. *)
Definition blank_banner : Document :=
  [ text_page 600 [ mk_span "   " 24 "Helvetica-Bold" 250 350;
                    mk_span "Annual Report" 18 "Helvetica-Bold" 200 400 ] ].

(** C3, as stated, fails: the span of size 24 is bold and centered, yet the
    title is the text of the span of size 18, whether "text" is read as the
    raw or as the trimmed text of the span. *)
Lemma title_ignores_blank_spans :
  ~ unguarded_title_rule span_text blank_banner /\
  ~ unguarded_title_rule (fun s => strip (span_text s)) blank_banner /\
  layout_title (Ok blank_banner) __init__ = Ok (lit "Annual Report").
Proof.
  split; [|split].
  - intros H.
    specialize (H _ _ _ __init__ eq_refl eq_refl). vm_compute in H.
    discriminate H.
  - intros H.
    specialize (H _ _ _ __init__ eq_refl eq_refl). vm_compute in H.
    discriminate H.
  - vm_compute. reflexivity.
Qed.

(** C3, amended.  On a first page whose text can be read, the title is
    "Untitled Document" when no span with non-empty trimmed text, font size
    > 14, bold and centered (on the first page's width) exists; otherwise it
    is the trimmed text of the first such span of largest font size: spans
    before it are strictly smaller, spans after it are not larger.  A layout
    extraction that succeeds carries this title. *)
Theorem layout_title_largest_candidate self first rest blocks :
  get_text_blocks first = Ok blocks ->
  exists t,
    _extract_title first (layout_state first rest)
      = (layout_state first rest, Ok t) /\
    (forall self' out,
        _extract_layout_based (Ok (first :: rest)) self = (self', Ok out) ->
        title out = t) /\
    title_of (rect_width first) (page_spans blocks) t.
Proof.
  intros Hb.
  destruct (extract_title_run (layout_state first rest) first Hb)
    as (t & Ht & Hof).
  exists t. repeat split; auto.
  intros self' out H. apply layout_title_inv in H as (s1 & H).
  rewrite Ht in H. now injection H as _ <-.
Qed.

(** Two candidates share the largest size; the first of them wins. *)
Definition tied_titles : Page :=
  text_page 600 [ mk_span "Draft" 16 "Helvetica-Bold" 280 320;
                  mk_span "Annual Report" 24 "Helvetica-Bold" 200 400;
                  mk_span "Second Volume" 24 "Helvetica-Bold" 200 400 ].

Lemma layout_title_largest_candidate_witness :
  exists t,
    _extract_title tied_titles (layout_state tied_titles [])
      = (layout_state tied_titles [], Ok t) /\
    (forall self' out,
        _extract_layout_based (Ok [tied_titles]) __init__ = (self', Ok out) ->
        title out = t) /\
    title_of 600
      (mk_span "Draft" 16 "Helvetica-Bold" 280 320 ::
       mk_span "Annual Report" 24 "Helvetica-Bold" 200 400 ::
       mk_span "Second Volume" 24 "Helvetica-Bold" 200 400 :: nil) t.
Proof.
  exact (@layout_title_largest_candidate __init__ tied_titles [] _ eq_refl).
Defined.

Example tied_titles_title :
  layout_title (Ok [tied_titles]) __init__ = Ok (lit "Annual Report").
Proof. vm_compute. reflexivity. Qed.

(** ** The layout pipeline: candidates of a whole document *)

(** The candidates of the page with index [fst nb] and blocks [snd nb],
    tested against the width [w]. *)
Definition page_candidates (w : Q) (nb : nat * list Block)
  : list HeadingInfo :=
  map (heading_of w (fst nb + 1))
      (filter (heading_candidate w) (page_spans (snd nb))).

Definition doc_candidates (w : Q) (bs : list (list Block))
  : list HeadingInfo :=
  flat_map (page_candidates w) (enumerate 0 bs).

Definition readable (d : Document) (bs : list (list Block)) : Prop :=
  Forall2 (fun p b => get_text_blocks p = Ok b) d bs.

Lemma extract_headings_run self p n blocks :
  get_text_blocks p = Ok blocks ->
  _extract_headings_from_page p (n + 1) self
  = (self, Ok (page_candidates (page_width self) (n, blocks))).
Proof.
  intros Hb. unfold _extract_headings_from_page, mbind, get_self, lift, ret.
  rewrite Hb, heading_step_flat. reflexivity.
Qed.

Lemma collect_run self d bs :
  readable d bs ->
  forall i acc,
    for_each (enumerate i d)
      (fun '(page_num, page) headings =>
         page_headings <~ _extract_headings_from_page page (page_num + 1) ;;
         ret (headings ++ page_headings))
      acc self
    = (self, Ok (acc ++ flat_map (page_candidates (page_width self))
                                  (enumerate i bs))).
Proof.
  induction 1 as [|p b d bs Hp Hd IH]; intros i acc; simpl.
  - unfold ret. now rewrite app_nil_r.
  - unfold mbind at 1. unfold mbind at 1.
    rewrite (extract_headings_run self p i Hp). unfold ret at 1.
    rewrite IH, <- app_assoc. reflexivity.
Qed.

Lemma layout_run self first rest bs :
  readable (first :: rest) bs ->
  exists t cl,
    _extract_layout_based (Ok (first :: rest)) self
      = (layout_state first rest,
         Ok {| title := t; outline := map to_entry cl |}) /\
    _classify_headings (doc_candidates (rect_width first) bs) = Ok cl.
Proof.
  intros Hr. inversion Hr as [|p b d bs' Hp Hd]; subst.
  destruct (extract_title_run (layout_state first rest) first Hp)
    as (t & Ht & _).
  destruct (classify_total (doc_candidates (rect_width first) (b :: bs')))
    as (cl & Hc).
  exists t, cl. split; [|exact Hc].
  unfold _extract_layout_based, mbind, lift, set_doc, set_page_size, raise.
  match goal with
  | |- context [_extract_title first ?s] =>
      change s with (layout_state first rest)
  end.
  rewrite Ht. unfold collect_headings. rewrite (collect_run (layout_state first rest) Hr).
  change ([] ++ flat_map (page_candidates (page_width (layout_state first rest)))
                     (enumerate 0 (b :: bs')))
    with (doc_candidates (rect_width first) (b :: bs')).
  rewrite Hc. reflexivity.
Qed.

(** The candidate rule with each page's own width in the centering test. *)
Definition own_width_candidates (np : nat * Page) : list HeadingInfo :=
  match get_text_blocks (snd np) with
  | Ok blocks => page_candidates (rect_width (snd np)) (fst np, blocks)
  | Raise _ => []
  end.

Definition own_width_outline (d : Document) : exc (list Entry) :=
  cl <- _classify_headings (flat_map own_width_candidates (enumerate 0 d)) ;;
  Ok (map to_entry cl).

Definition layout_outline (pdf : PdfFile) (self : PDFOutlineExtractor)
  : exc (list Entry) :=
  out <- snd (_extract_layout_based pdf self) ;; Ok (outline out).

(** A narrow first page and a wide second page; the plain span on the
    second page sits in the middle of its own page. *)
Definition wide_second_page : Document :=
  [ text_page 600 [ mk_span "Contents" 12 "Times-Bold" 50 150 ];
    text_page 1000 [ mk_span "Chapter One" 12 "Times-Roman" 480 520 ] ].

(** C1, as stated, fails: with page-specific widths "Chapter One" would be
    a candidate on page 2; the pipeline tests it against the first page's
    width and drops it. *)
Lemma centering_ignores_page_width :
  layout_outline (Ok wide_second_page) __init__
    = Ok [entry H2 "Contents" 1] /\
  own_width_outline wide_second_page
    = Ok [entry H2 "Contents" 1; entry H3 "Chapter One" 2] /\
  layout_outline (Ok wide_second_page) __init__
    <> own_width_outline wide_second_page.
Proof.
  split; [|split]; vm_compute; [reflexivity|reflexivity|discriminate].
Qed.

(** C1, amended.  On a document whose pages can all be read, the layout
    pipeline classifies the candidates [doc_candidates w], where [w] is the
    width of the first page: on every page a span is kept iff its trimmed
    text has 3 to 100 characters, its font size is >= 10 and it is bold or
    centered, the page center and the tolerance of 0.1 of the width being
    those of the first page. *)
Theorem layout_candidates_first_page_width self first rest bs :
  readable (first :: rest) bs ->
  (exists t cl,
      _extract_layout_based (Ok (first :: rest)) self
        = (layout_state first rest,
           Ok {| title := t; outline := map to_entry cl |}) /\
      _classify_headings (doc_candidates (rect_width first) bs) = Ok cl) /\
  (forall n blocks h,
      In (n, blocks) (enumerate 0 bs) ->
      (In h (page_candidates (rect_width first) (n, blocks)) <->
       exists s, In s (page_spans blocks) /\
                 h = heading_of (rect_width first) (n + 1) s /\
                 3 <= length (strip (span_text s)) <= 100 /\
                 (10 <= span_size s)%Q /\
                 (span_is_bold s = true \/ centered_on (rect_width first) s))).
Proof.
  intros Hr. split; [now apply layout_run|].
  intros n blocks h _. unfold page_candidates. simpl.
  rewrite in_map_iff. split.
  - intros (s & <- & Hs). apply filter_In in Hs as [Hs Hc].
    apply heading_candidate_iff in Hc. exists s. tauto.
  - intros (s & Hs & -> & Hc). exists s. split; [reflexivity|].
    apply filter_In. split; [exact Hs|]. apply heading_candidate_iff. exact Hc.
Qed.

Lemma layout_candidates_first_page_width_witness :
  exists t cl,
    _extract_layout_based (Ok wide_second_page) __init__
      = (layout_state (text_page 600 [mk_span "Contents" 12 "Times-Bold" 50 150])
           [text_page 1000 [mk_span "Chapter One" 12 "Times-Roman" 480 520]],
         Ok {| title := t; outline := map to_entry cl |}) /\
    _classify_headings
      (doc_candidates 600
         [ [ {| lines := Some [ {| spans :=
                 [mk_span "Contents" 12 "Times-Bold" 50 150] |} ] |} ];
           [ {| lines := Some [ {| spans :=
                 [mk_span "Chapter One" 12 "Times-Roman" 480 520] |} ] |} ] ])
    = Ok cl.
Proof.
  refine (proj1 (@layout_candidates_first_page_width __init__ _ _ _ _)).
  repeat constructor.
Defined.

(** ** Boundary values of the candidate filter *)

(** A plain centered span of size 10 whose text has 100 characters. *)
Definition hundred : string :=
  "0123456789012345678901234567890123456789012345678901234567890123456789012345678901234567890123456789".

Definition boundary_span : Span := mk_span hundred 10 "Times-Roman" 250 350.

Definition self_600 : PDFOutlineExtractor :=
  {| doc := None; page_width := 600; page_height := 800 |}.

(** What [_extract_headings_from_page] returns on a page that yields its
    text, for any page number. *)
Lemma extract_headings_on_page self page page_num blocks :
  get_text_blocks page = Ok blocks ->
  _extract_headings_from_page page page_num self
  = (self, Ok (map (heading_of (page_width self) page_num)
                   (filter (heading_candidate (page_width self))
                           (page_spans blocks)))).
Proof.
  intros Hb. unfold _extract_headings_from_page, mbind, get_self, lift, ret.
  rewrite Hb, heading_step_flat. reflexivity.
Qed.

(** The candidate test reads nothing of a span but what the heading made
    of it records. *)
Lemma heading_of_candidate w n s s' :
  heading_of w n s' = heading_of w n s ->
  heading_candidate w s' = heading_candidate w s.
Proof.
  unfold heading_of, heading_candidate. intros H.
  injection H as Ht Hs Hb Hc. rewrite Ht, Hs, Hb, Hc. reflexivity.
Qed.

Lemma heading_on_page_iff w n ss s :
  In s ss ->
  (In (heading_of w n s) (map (heading_of w n) (filter (heading_candidate w) ss))
   <-> heading_candidate w s = true).
Proof.
  intros Hs. rewrite in_map_iff. split.
  - intros (s' & E & Hs'). apply filter_In in Hs' as [_ Hc].
    now rewrite <- (@heading_of_candidate _ _ _ _ E).
  - intros Hc. exists s. split; [reflexivity|]. now apply filter_In.
Qed.

(** The first half of C9 read without the length test of the filter: on a
    page that yields its text, every span of font size 10 that is centered
    and not bold becomes a candidate of [_extract_headings_from_page]. *)
Definition size_ten_always_accepted (self : PDFOutlineExtractor) (page : Page)
  : Prop :=
  forall blocks s page_num,
    get_text_blocks page = Ok blocks -> In s (page_spans blocks) ->
    (span_size s == 10)%Q -> span_is_bold s = false ->
    _is_text_centered (span_bbox s) (page_width self) tolerance_default = true ->
    exists hs, _extract_headings_from_page page page_num self = (self, Ok hs) /\
               In (heading_of (page_width self) page_num s) hs.

(** A page whose only span is centered, plain, of size 10, with a text of
    two characters. *)
Definition short_span : Span := mk_span "Hi" 10 "Times-Roman" 250 350.
Definition short_page : Page := text_page 600 [short_span].

(** C9, as stated, fails: the span of [short_page] has font size exactly 10,
    is centered and not bold, and is no candidate, because its text is
    shorter than 3 characters; the layout outline of the page is empty. *)
Lemma size_ten_needs_three_characters :
  ~ size_ten_always_accepted self_600 short_page /\
  _extract_headings_from_page short_page 1 self_600 = (self_600, Ok []) /\
  layout_outline (Ok [short_page]) __init__ = Ok [].
Proof.
  split; [|split; vm_compute; reflexivity].
  intros H.
  destruct (H _ short_span 1 eq_refl (or_introl eq_refl))
    as (hs & Hrun & Hin); try reflexivity.
  vm_compute in Hrun. injection Hrun as <-. destruct Hin.
Qed.

(** C9, amended.  For a span of a page that yields its text,
    [_extract_headings_from_page] returns a list of candidates in which:
    the span is present if its font size is exactly 10, it is centered and
    not bold, and its trimmed text has 3 to 100 characters (the >= 10
    boundary is inclusive); a span whose trimmed text has exactly 100
    characters passes the length test, so it is present exactly when its
    font size is >= 10 and it is bold or centered; a span with a longer
    trimmed text is never present. *)
Theorem heading_boundaries_on_page self page page_num blocks s :
  get_text_blocks page = Ok blocks ->
  In s (page_spans blocks) ->
  exists hs,
    _extract_headings_from_page page page_num self = (self, Ok hs) /\
    ((span_size s == 10)%Q ->
     span_is_bold s = false ->
     _is_text_centered (span_bbox s) (page_width self) tolerance_default
       = true ->
     3 <= length (strip (span_text s)) <= 100 ->
     In (heading_of (page_width self) page_num s) hs) /\
    (length (strip (span_text s)) = 100 ->
     (In (heading_of (page_width self) page_num s) hs <->
      (10 <= span_size s)%Q /\
      (span_is_bold s = true \/
       _is_text_centered (span_bbox s) (page_width self) tolerance_default
         = true))) /\
    (100 < length (strip (span_text s)) ->
     ~ In (heading_of (page_width self) page_num s) hs).
Proof.
  intros Hb Hs. eexists. split; [apply (@extract_headings_on_page _ _ _ _ Hb)|].
  split; [|split].
  - intros Hsz Hbold Hc Hlen. apply (@heading_on_page_iff _ _ _ _ Hs).
    apply heading_candidate_iff. repeat split; try tauto.
    + rewrite Hsz. apply Qle_refl.
    + right. now apply is_text_centered_iff.
  - intros Hlen. rewrite (@heading_on_page_iff _ _ _ _ Hs).
    rewrite heading_candidate_iff, Hlen, <- is_text_centered_iff.
    split; [tauto|].
    intros H. repeat split; try tauto; lia.
  - intros Hlen Hin. apply (@heading_on_page_iff _ _ _ _ Hs) in Hin.
    apply heading_candidate_iff in Hin. lia.
Qed.

Definition boundary_page : Page := text_page 600 [boundary_span].

Lemma heading_boundaries_on_page_witness :
  exists hs,
    _extract_headings_from_page boundary_page 1 self_600 = (self_600, Ok hs) /\
    In (heading_of 600 1 boundary_span) hs.
Proof.
  destruct (@heading_boundaries_on_page self_600 boundary_page 1
              (match get_text_blocks boundary_page with
               | Ok b => b | Raise _ => [] end)
              boundary_span eq_refl (or_introl eq_refl))
    as (hs & Hrun & Hten & _ & _).
  exists hs. split; [exact Hrun|].
  apply Hten.
  - reflexivity.
  - reflexivity.
  - reflexivity.
  - vm_compute. split; [apply Nat.leb_le|apply Nat.leb_le]; reflexivity.
Defined.

(** The same boundary span, run through the method. *)
Example boundary_span_is_kept :
  _extract_headings_from_page boundary_page 1 self_600
  = (self_600, Ok [heading_of 600 1 boundary_span]).
Proof. vm_compute. reflexivity. Qed.

(** ** Strictness of the centering test *)

(** C10.  A span whose horizontal midpoint lies at a distance of exactly 0.1
    times the page width from the page center is not centered: the title
    loop skips it, and the heading loop keeps it only if it is bold. *)
Theorem centering_is_strict self s :
  (Qabs ((x0 (span_bbox s) + x1 (span_bbox s)) / 2 - page_width self / 2)
   == page_width self * (1 # 10))%Q ->
  _is_text_centered (span_bbox s) (page_width self) tolerance_default = false /\
  (forall title_candidates, title_step self title_candidates s = title_candidates) /\
  (forall page_num headings,
      span_is_bold s = false ->
      heading_step self page_num headings s = headings).
Proof.
  intros Hd.
  assert (Hc : _is_text_centered (span_bbox s) (page_width self)
                 tolerance_default = false).
  { unfold _is_text_centered, tolerance_default. apply Qltb_ge.
    rewrite Hd. apply Qle_refl. }
  split; [exact Hc|split].
  - intros acc. unfold title_step. destruct (strip (span_text s)); auto.
    rewrite Hc, andb_false_r. reflexivity.
  - intros n acc Hb. rewrite heading_step_spec. unfold heading_candidate.
    rewrite Hb, Hc, andb_false_r. apply app_nil_r.
Qed.

(** Width 600, midpoint 360: at distance 60 from the center 300. *)
Definition edge_span : Span := mk_span "Edge Case" 16 "Times-Roman" 340 380.

Lemma centering_is_strict_witness :
  _is_text_centered (span_bbox edge_span) 600 tolerance_default = false /\
  (forall title_candidates,
      title_step self_600 title_candidates edge_span = title_candidates) /\
  (forall page_num headings,
      span_is_bold edge_span = false ->
      heading_step self_600 page_num headings edge_span = headings).
Proof.
  apply (@centering_is_strict self_600 edge_span). reflexivity.
Defined.

(** Just inside the tolerance the span is centered. *)
Example centered_inside_tolerance :
  _is_text_centered (span_bbox (mk_span "Edge Case" 16 "Times-Roman" 339 380))
    600 tolerance_default = true.
Proof. reflexivity. Qed.

(** ** Empty documents *)

(** C5.  On a document without pages both pipelines raise the error for an
    empty or corrupt document, a [ValueError] in the source, whatever the
    state of the extractor. *)
Theorem empty_document_raises self :
  snd (_extract_layout_based (Ok []) self) = Raise empty_pdf /\
  snd (_extract_ocr_based (Ok []) self) = Raise empty_pdf.
Proof. split; reflexivity. Qed.

(** ** The OCR pipeline does not read the extractor *)

Lemma ocr_page_state_free n p st :
  exists r, forall self, ocr_page n p st self = (self, r).
Proof.
  destruct st as [all_text t]. unfold ocr_page, mbind, lift, ret.
  destruct (get_pixmap p) as [pix|e]; [|eexists; reflexivity].
  destruct (image_to_string pix); eexists; reflexivity.
Qed.

Lemma for_each_state_free {A S} (body : A -> S -> M S) :
  (forall x acc, exists r, forall self, body x acc self = (self, r)) ->
  forall l acc, exists r, forall self, for_each l body acc self = (self, r).
Proof.
  intros Hbody l. induction l as [|x l IH]; intros acc; simpl.
  - eexists. reflexivity.
  - destruct (Hbody x acc) as ([acc'|e] & Hr).
    + destruct (IH acc') as (r & Hl). exists r. intros self.
      unfold mbind. rewrite Hr. apply Hl.
    + exists (Raise e). intros self. unfold mbind. now rewrite Hr.
Qed.

Lemma ocr_state_free pdf :
  exists r, forall self, snd (_extract_ocr_based pdf self) = r.
Proof.
  unfold _extract_ocr_based, mbind, lift, set_doc, raise.
  destruct pdf as [d|e]; [|exists (Raise e); reflexivity].
  destruct d as [|p d]; [exists (Raise empty_pdf); reflexivity|].
  destruct (for_each_state_free
              (fun '(page_num, page) st => ocr_page page_num page st)
              (fun x acc => match x with (n, q) => ocr_page_state_free n q acc end)
              (enumerate 0 (p :: d)) ([], untitled)) as (r & Hr).
  destruct r as [[all_text t]|e].
  - exists (Ok {| title := t; outline := _detect_headings_from_ocr all_text |}).
    intros self. rewrite Hr. reflexivity.
  - exists (Raise e). intros self. rewrite Hr. reflexivity.
Qed.

(** ** Orchestrator *)

(** C4.  When the layout pipeline raises, the outcome of [extract_outline]
    is the outcome of the OCR pipeline run alone on the same file, from any
    state of the extractor; in particular an exception of the OCR pipeline
    is the exception of [extract_outline]. *)
Theorem fallback_is_ocr_alone pdf self self1 e :
  _extract_layout_based pdf self = (self1, Raise e) ->
  (forall self0,
      snd (extract_outline pdf self) = snd (_extract_ocr_based pdf self0)) /\
  (forall self0 e2,
      snd (_extract_ocr_based pdf self0) = Raise e2 ->
      snd (extract_outline pdf self) = Raise e2).
Proof.
  intros Hl.
  assert (H : forall self0,
             snd (extract_outline pdf self) = snd (_extract_ocr_based pdf self0)).
  { intros self0. unfold extract_outline, try_except. rewrite Hl.
    destruct (ocr_state_free pdf) as (r & Hr). now rewrite !Hr. }
  split; [exact H|]. intros self0 e2 H2. now rewrite (H self0).
Qed.

(** Text lines joined by line feeds. *)
Fixpoint unlines (ls : list string) : str :=
  match ls with
  | [] => []
  | [l] => lit l
  | l :: ls' => lit l ++ newline :: unlines ls'
  end.

(** A scanned page: no text layer, four recognised lines. *)
Definition scanned : Document :=
  [ scanned_page 600
      (unlines ["Summary"; "INTRODUCTION"; "42"; "  1. Overview  "]%string) ].

Lemma fallback_is_ocr_alone_witness :
  (forall self0,
      snd (extract_outline (Ok scanned) __init__)
      = snd (_extract_ocr_based (Ok scanned) self0)) /\
  (forall self0 e2,
      snd (_extract_ocr_based (Ok scanned) self0) = Raise e2 ->
      snd (extract_outline (Ok scanned) __init__) = Raise e2).
Proof.
  apply (@fallback_is_ocr_alone (Ok scanned) __init__
           (fst (_extract_layout_based (Ok scanned) __init__))
           (RuntimeError "cannot extract text")).
  vm_compute. reflexivity.
Defined.

Example fallback_on_scanned :
  snd (extract_outline (Ok scanned) __init__)
  = Ok {| title := lit "Summary";
          outline := [entry H3 "Summary" 1; entry H1 "INTRODUCTION" 1;
                      entry H2 "1. Overview" 1] |}.
Proof. vm_compute. reflexivity. Qed.

Example fallback_on_empty :
  snd (extract_outline (Ok []) __init__) = Raise empty_pdf.
Proof. reflexivity. Qed.

(** ** The OCR pipeline: order of the outline *)

(** The trimmed lines the OCR engine yields for a page, in order; none when
    recognition fails. *)
Definition ocr_lines (p : Page) : list str :=
  match get_pixmap p with
  | Ok pix => match image_to_string pix with
              | Ok ocr_text => map strip (split_lines ocr_text)
              | Raise _ => []
              end
  | Raise _ => []
  end.

Definition substantial (l : str) : bool := truthy l && (2 <? length l).

Definition line_at (n : nat) (l : str) : TextLine :=
  {| line_text := l; line_page := n + 1 |}.

Definition entry_of (li : TextLine) : Entry :=
  {| entry_level := _classify_ocr_heading (line_text li);
     entry_text := line_text li; entry_page := line_page li |}.

(** The headings of the page with index [n], in the order of its lines. *)
Definition page_entries (n : nat) (p : Page) : list Entry :=
  map (fun l => entry_of (line_at n l))
      (filter (fun l => substantial l && _looks_like_heading l) (ocr_lines p)).

Lemma detect_headings_spec tl :
  _detect_headings_from_ocr tl =
  map entry_of (filter (fun li => _looks_like_heading (line_text li)) tl).
Proof.
  unfold _detect_headings_from_ocr. rewrite <- flat_map_filter.
  apply fold_left_append with
    (f := fun li => if _looks_like_heading (line_text li)
                    then [entry_of li] else []).
  intros acc li. destruct (_looks_like_heading (line_text li));
    [reflexivity|now rewrite app_nil_r].
Qed.

Lemma collect_lines_spec n ls : forall acc,
  collect_lines n ls acc =
  acc ++ map (line_at n) (filter substantial (map strip ls)).
Proof.
  unfold collect_lines.
  induction ls as [|l ls IH]; intros acc; simpl; [now rewrite app_nil_r|].
  rewrite IH. fold (substantial (strip l)).
  destruct (substantial (strip l)); simpl; [|reflexivity].
  now rewrite <- app_assoc.
Qed.

Definition page_lines (np : nat * Page) : list TextLine :=
  map (line_at (fst np)) (filter substantial (ocr_lines (snd np))).

Lemma ocr_loop d : forall i all_text t self self' all_text' t',
  for_each (enumerate i d)
    (fun '(page_num, page) st => ocr_page page_num page st)
    (all_text, t) self = (self', Ok (all_text', t')) ->
  all_text' = all_text ++ flat_map page_lines (enumerate i d).
Proof.
  induction d as [|p d IH]; intros i all_text t self self' all_text' t'; simpl.
  - unfold ret. intros H. injection H as _ <- _. now rewrite app_nil_r.
  - unfold mbind at 1. unfold ocr_page at 1, mbind, lift, ret.
    unfold page_lines at 1, ocr_lines. simpl fst. simpl snd.
    destruct (get_pixmap p) as [pix|e]; [|discriminate].
    destruct (image_to_string pix) as [ocr_text|e].
    + intros H. apply IH in H. rewrite H, collect_lines_spec, <- app_assoc.
      reflexivity.
    + intros H. apply IH in H. exact H.
Qed.

Lemma entries_of_lines l :
  map entry_of (filter (fun li => _looks_like_heading (line_text li))
                       (flat_map page_lines l))
  = flat_map (fun np => page_entries (fst np) (snd np)) l.
Proof.
  induction l as [|[n p] l IH]; simpl; [reflexivity|].
  rewrite filter_app, map_app, IH. f_equal.
  unfold page_lines, page_entries. simpl.
  induction (ocr_lines p) as [|x xs IHx]; simpl; [reflexivity|].
  destruct (substantial x); simpl; [|exact IHx].
  destruct (_looks_like_heading x); simpl; [|exact IHx].
  now rewrite IHx.
Qed.

Definition page_le (a b : Entry) : Prop := entry_page a <= entry_page b.

Lemma StronglySorted_app {A} (R : A -> A -> Prop) l1 l2 :
  StronglySorted R l1 -> StronglySorted R l2 ->
  (forall x y, In x l1 -> In y l2 -> R x y) ->
  StronglySorted R (l1 ++ l2).
Proof.
  induction 1 as [|x l1 Hs IH Hx]; intros H2 H12; simpl; [exact H2|].
  constructor.
  - apply IH; auto. intros; apply H12; simpl; auto.
  - apply Forall_app. split; [exact Hx|].
    apply Forall_forall. intros y Hy. apply H12; simpl; auto.
Qed.

Lemma page_entries_page n p e : In e (page_entries n p) -> entry_page e = n + 1.
Proof.
  unfold page_entries. rewrite in_map_iff. intros (l & <- & _). reflexivity.
Qed.

Lemma same_page_sorted n l :
  (forall e, In e l -> entry_page e = n) -> StronglySorted page_le l.
Proof.
  induction l as [|x l IH]; intros H; constructor.
  - apply IH. intros; apply H; simpl; auto.
  - apply Forall_forall. intros y Hy. unfold page_le.
    rewrite (H x), (H y); simpl; auto.
Qed.

Lemma entries_pages_sorted d : forall i,
  StronglySorted page_le
    (flat_map (fun np => page_entries (fst np) (snd np)) (enumerate i d)) /\
  forall e, In e (flat_map (fun np => page_entries (fst np) (snd np))
                           (enumerate i d)) -> i + 1 <= entry_page e.
Proof.
  induction d as [|p d IH]; intros i; simpl.
  - split; [constructor|tauto].
  - destruct (IH (S i)) as [Hs Hlow]. split.
    + apply StronglySorted_app; auto.
      * apply same_page_sorted with (n := i + 1), page_entries_page.
      * intros x y Hx Hy. apply page_entries_page in Hx. apply Hlow in Hy.
        unfold page_le. lia.
    + intros e He. apply in_app_or in He as [He|He].
      * apply page_entries_page in He. lia.
      * apply Hlow in He. lia.
Qed.

(** C8.  The outline of an OCR extraction lists, page after page in
    ascending page order, the heading lines of each page in the order of
    the lines on that page; page numbers never decrease along it, and
    nothing reorders it by level. *)
Theorem ocr_outline_encounter_order pdf self self' out :
  _extract_ocr_based pdf self = (self', Ok out) ->
  exists d,
    pdf = Ok d /\
    outline out
    = flat_map (fun np => page_entries (fst np) (snd np)) (enumerate 0 d) /\
    StronglySorted page_le (outline out).
Proof.
  unfold _extract_ocr_based, mbind, lift, set_doc, raise.
  destruct pdf as [d|e]; [|discriminate].
  destruct d as [|p d]; [discriminate|].
  destruct (for_each _ _ _ _) as [s1 [[all_text t]|e]] eqn:E; [|discriminate].
  unfold ret. intros H. injection H as _ <-. simpl outline.
  apply ocr_loop in E.
  change (all_text = flat_map page_lines (enumerate 0 (p :: d))) in E.
  subst all_text.
  exists (p :: d). split; [reflexivity|].
  rewrite detect_headings_spec, entries_of_lines.
  split; [reflexivity|apply entries_pages_sorted].
Qed.

(** Two scanned pages; on the first a plain line precedes a line in
    capitals. *)
Definition two_scans : Document :=
  [ scanned_page 600 (unlines ["Summary"; "INTRODUCTION"; "42"]%string);
    scanned_page 600 (unlines ["1. Overview"; "lower case line"]%string) ].

Definition two_scans_outline : list Entry :=
  [entry H3 "Summary" 1; entry H1 "INTRODUCTION" 1; entry H2 "1. Overview" 2].

Lemma ocr_outline_encounter_order_witness :
  exists d,
    Ok two_scans = Ok d /\
    two_scans_outline
    = flat_map (fun np => page_entries (fst np) (snd np)) (enumerate 0 d) /\
    StronglySorted page_le two_scans_outline.
Proof.
  apply (@ocr_outline_encounter_order (Ok two_scans) __init__
           (fst (_extract_ocr_based (Ok two_scans) __init__))
           {| title := lit "Summary"; outline := two_scans_outline |}).
  vm_compute. reflexivity.
Defined.

(** The OCR outline above is not in the order of the layout pipeline: on
    page 1 the H3 entry precedes the H1 entry. *)
Example ocr_outline_not_sorted_by_level :
  ~ StronglySorted entry_le two_scans_outline.
Proof.
  intros H. inversion H as [|? ? _ Hall]; subst.
  inversion Hall as [|? ? Hle _]; subst.
  destruct Hle as [Hlt|[_ Hle]]; vm_compute in *; lia.
Qed.

(** ** What the patterns of the OCR pipeline match *)

Module RegexFacts.
Import Regex.

Lemma star_loop_sound n r step k :
  (forall k' s', step k' s' = true -> accepts n r k' s') ->
  forall fuel s, star_loop step k fuel s = true -> accepts n (Star r) k s.
Proof.
  intros Hstep fuel; induction fuel as [|fuel IH]; intros s H; simpl in H.
  - exists [], s; repeat split; auto using MStar0.
  - apply orb_true_iff in H as [H|H].
    + apply Hstep in H as (a & b & -> & Ha & Hk).
      apply andb_true_iff in Hk as [Hlen Hk].
      apply IH in Hk as (a' & b' & -> & Ha' & Hk').
      exists (a ++ a'), b'. rewrite app_assoc. repeat split; auto.
      apply MStarS; auto.
      intros ->. simpl in Hlen. apply Nat.ltb_lt in Hlen. lia.
    + exists [], s; repeat split; auto using MStar0.
Qed.

Lemma star_loop_complete n r step k :
  (forall k' s', accepts n r k' s' -> step k' s' = true) ->
  forall fuel a b, Matches n (Star r) a b -> k b = true ->
    length (a ++ b) <= fuel -> star_loop step k fuel (a ++ b) = true.
Proof.
  intros Hstep fuel; induction fuel as [|fuel IH]; intros a b Hm Hk Hlen.
  - destruct a; [|simpl in Hlen; lia].
    destruct b; [|simpl in Hlen; lia]. exact Hk.
  - simpl. inversion Hm; subst.
    + simpl. rewrite Hk. apply orb_true_r.
    + apply orb_true_iff; left. apply Hstep.
      exists a0, (b0 ++ b). rewrite app_assoc. repeat split; auto.
      apply andb_true_iff; split.
      * apply Nat.ltb_lt. rewrite !length_app.
        destruct a0; [congruence|simpl; lia].
      * apply IH; auto.
        rewrite !length_app in *. destruct a0; [congruence|simpl in *; lia].
Qed.

Theorem exec_spec n r : forall k s, exec n r k s = true <-> accepts n r k s.
Proof.
  induction r as [| |p|r1 IH1 r2 IH2|r IH]; intros k s; simpl.
  - rewrite andb_true_iff, Nat.eqb_eq. split.
    + intros [Hn Hk]. exists [], s. repeat split; auto using MBol.
    + intros (a & b & -> & Hm & Hk). inversion Hm; subst. auto.
  - rewrite andb_true_iff. split.
    + intros [Hn Hk]. exists [], s. repeat split; auto using MEol.
    + intros (a & b & -> & Hm & Hk). inversion Hm; subst. auto.
  - split.
    + destruct s as [|c s']; [discriminate|].
      rewrite andb_true_iff. intros [Hp Hk].
      exists [c], s'. repeat split; auto using MCls.
    + intros (a & b & -> & Hm & Hk). inversion Hm; subst. simpl.
      apply andb_true_iff; auto.
  - rewrite IH1. split.
    + intros (a & b & -> & Hm & Hk). apply IH2 in Hk as (a' & b' & -> & Hm' & Hk').
      exists (a ++ a'), b'. rewrite app_assoc. repeat split; auto using MCat.
    + intros (a & b & -> & Hm & Hk). inversion Hm; subst.
      exists a0, (b0 ++ b). rewrite app_assoc. repeat split; auto.
      apply IH2. exists b0, b. auto.
  - split.
    + apply star_loop_sound. intros k' s'. apply IH.
    + intros (a & b & -> & Hm & Hk).
      apply star_loop_complete with (r := r) (n := n); auto.
      intros k' s'. apply IH.
Qed.

Corollary re_match_spec r s :
  re_match r s = true <->
  exists a b, s = a ++ b /\ Matches (length s) r a b.
Proof.
  unfold re_match. rewrite exec_spec. unfold accepts.
  split; intros (a & b & H1 & H2); [destruct H2|]; exists a, b; auto.
Qed.

Lemma matches_bol n a b : Matches n Bol a b <-> a = [] /\ length b = n.
Proof.
  split; [intros H; inversion H; auto|intros [-> H]; now constructor].
Qed.

Lemma matches_eol n a b : Matches n Eol a b <-> a = [] /\ at_eol b = true.
Proof.
  split; [intros H; inversion H; auto|intros [-> H]; now constructor].
Qed.

Lemma matches_cls n p a b :
  Matches n (Cls p) a b <-> exists c, a = [c] /\ p c = true.
Proof.
  split.
  - intros H; inversion H; eauto.
  - intros (c & -> & H). now constructor.
Qed.

Lemma matches_cat n r1 r2 a b :
  Matches n (Cat r1 r2) a b <->
  exists a1 a2, a = a1 ++ a2 /\ Matches n r1 a1 (a2 ++ b) /\ Matches n r2 a2 b.
Proof.
  split.
  - intros H; inversion H; subst. eauto.
  - intros (a1 & a2 & -> & H1 & H2). now constructor.
Qed.

Lemma matches_star_cls n p a b :
  Matches n (Star (Cls p)) a b <-> forallb p a = true.
Proof.
  split.
  - intros H. remember (Star (Cls p)) as r eqn:E.
    induction H as [| | | | |r' a b s Hne Hr _ Hs IH]; try discriminate.
    + reflexivity.
    + injection E as ->. apply matches_cls in Hr as (c & -> & Hc).
      simpl. rewrite Hc. now apply IH.
  - revert b. induction a as [|c a IH]; intros b H; [constructor|].
    simpl in H. apply andb_true_iff in H as [Hc Ha].
    change (c :: a) with ([c] ++ a). constructor; [discriminate| |auto].
    now constructor.
Qed.

Lemma matches_plus_cls n p a b :
  Matches n (Plus (Cls p)) a b <-> a <> [] /\ forallb p a = true.
Proof.
  unfold Plus. rewrite matches_cat. split.
  - intros (a1 & a2 & -> & H1 & H2).
    apply matches_cls in H1 as (c & -> & Hc). apply matches_star_cls in H2.
    split; [discriminate|]. simpl. now rewrite Hc.
  - intros [Hne H]. destruct a as [|c a]; [congruence|].
    simpl in H. apply andb_true_iff in H as [Hc Ha].
    exists [c], a. repeat split.
    + apply matches_cls. eauto.
    + now apply matches_star_cls.
Qed.

(** Zero or more pieces, each in [L]. *)
Inductive repeated (L : str -> Prop) : str -> Prop :=
| rep_nil : repeated L []
| rep_app a a' : L a -> repeated L a' -> repeated L (a ++ a').

Lemma matches_star n r (L : str -> Prop) :
  (forall a b, Matches n r a b -> L a) ->
  forall a b, Matches n (Star r) a b -> repeated L a.
Proof.
  intros HL a b H. remember (Star r) as sr eqn:E.
  induction H as [| | | | |r' a b s Hne Hr _ Hs IH]; try discriminate.
  - constructor.
  - injection E as ->. constructor; eauto.
Qed.

Lemma star_matches n r (L : str -> Prop) :
  (forall a b, L a -> a <> [] /\ Matches n r a b) ->
  forall a b, repeated L a -> Matches n (Star r) a b.
Proof.
  intros HL a b H. induction H as [|a a' Ha _ IH]; [constructor|].
  destruct (HL a (a' ++ b) Ha) as [Hne Hm]. now constructor.
Qed.

Lemma at_eol_cases b : at_eol b = true <-> b = [] \/ b = [newline].
Proof.
  destruct b as [|c [|d b]]; simpl.
  - intuition.
  - rewrite Ascii.eqb_eq. split; [intros ->; auto|].
    intros [H|H]; [discriminate|now injection H].
  - split; [discriminate|]. intros [H|H]; discriminate.
Qed.

End RegexFacts.

(** ** Trimmed text *)

Lemma lstrip_head s c r : lstrip s = c :: r -> is_space c = false.
Proof.
  induction s as [|x s IH]; simpl; [discriminate|].
  destruct (is_space x) eqn:E; [exact IH|].
  intros H. injection H as <- _. exact E.
Qed.

Lemma strip_last raw a c : strip raw = a ++ [c] -> is_space c = false.
Proof.
  unfold strip, rstrip. intros H.
  apply (f_equal (@rev ascii)) in H.
  rewrite rev_involutive, rev_app_distr in H. simpl in H.
  now apply lstrip_head in H.
Qed.

Lemma strip_eol raw a b :
  strip raw = a ++ b -> Regex.at_eol b = true -> b = [].
Proof.
  intros H Hb. apply RegexFacts.at_eol_cases in Hb as [->| ->]; [reflexivity|].
  apply strip_last in H. discriminate H.
Qed.

(** ** The heading test of the OCR pipeline, in words *)

Module Shapes.
Import Regex RegexFacts.

(** One or more digits; one or more white-space characters. *)
Definition digits (s : str) : Prop := s <> [] /\ forallb is_digit s = true.
Definition blanks (s : str) : Prop := s <> [] /\ forallb is_space s = true.

(** Purely numeric. *)
Definition purely_numeric (t : str) : Prop := digits t.

(** All-uppercase with spaces: a capital letter, then one or more capital
    letters or white-space characters. *)
Definition capitals_and_spaces (t : str) : Prop :=
  exists c rest, t = c :: rest /\ is_AZ c = true /\ rest <> [] /\
    forallb (fun x => is_AZ x || is_space x) rest = true.

(** Numbered heading: digits, a full stop, white space, a capital letter,
    then anything. *)
Definition numbered (t : str) : Prop :=
  exists ds ws c tail, t = ds ++ "."%char :: ws ++ c :: tail /\
    digits ds /\ blanks ws /\ is_AZ c = true.

(** Digits, a full stop and white space at the start. *)
Definition numbered_start (t : str) : Prop :=
  exists ds ws tail, t = ds ++ "."%char :: ws ++ tail /\
    digits ds /\ blanks ws.

(** Title-Case words: words of a capital letter and one or more small
    letters, separated by white space. *)
Definition word (w : str) : Prop :=
  exists c rest, w = c :: rest /\ is_AZ c = true /\ rest <> [] /\
    forallb is_az rest = true.

Definition spaced_word (a : str) : Prop :=
  exists ws w, a = ws ++ w /\ blanks ws /\ word w.

Definition title_case_words (t : str) : Prop :=
  exists w more, t = w ++ more /\ word w /\ repeated spaced_word more.

(** All-uppercase: some uppercase character and no lowercase one. *)
Definition all_uppercase (t : str) : Prop :=
  (exists c, In c t /\ is_upper c = true) /\
  (forall c, In c t -> is_lower c = false).

Ltac inv_matches :=
  repeat match goal with
  | H : Matches _ (Plus (Cls _)) _ _ |- _ =>
      apply matches_plus_cls in H as [? ?]
  | H : Matches _ (Cat _ _) _ _ |- _ =>
      apply matches_cat in H as (? & ? & -> & ? & ?)
  | H : Matches _ Bol _ _ |- _ => apply matches_bol in H as [-> ?]
  | H : Matches _ Eol _ _ |- _ => apply matches_eol in H as [-> ?]
  | H : Matches _ (lit_char _) _ _ |- _ =>
      apply matches_cls in H as (? & -> & ?)
  | H : Matches _ (Cls _) _ _ |- _ =>
      apply matches_cls in H as (? & -> & ?)
  | H : Ascii.eqb _ _ = true |- _ => apply Ascii.eqb_eq in H; subst
  end.

Lemma just_numbers_spec raw :
  re_match just_numbers (strip raw) = true <-> purely_numeric (strip raw).
Proof.
  rewrite re_match_spec. unfold just_numbers, purely_numeric, digits.
  cbn [cat]. split.
  - intros (a & b & Ht & H). inv_matches.
    simpl in Ht. rewrite app_nil_r in Ht.
    pose proof (strip_eol _ _ _ Ht ltac:(assumption)) as ->.
    rewrite app_nil_r in Ht. rewrite Ht. auto.
  - intros [Hne Hd]. exists (strip raw), []. split; [now rewrite app_nil_r|].
    apply matches_cat. exists [], (strip raw). repeat split.
    + apply matches_bol. now rewrite app_nil_r.
    + apply matches_cat. exists (strip raw), [].
      rewrite app_nil_r. repeat split.
      * now apply matches_plus_cls.
      * now apply matches_eol.
Qed.

Lemma numbered_heading_spec t :
  re_match numbered_heading t = true <-> numbered t.
Proof.
  rewrite re_match_spec. unfold numbered_heading, numbered, digits, blanks.
  cbn [cat]. split.
  - intros (a & b & Ht & H). inv_matches.
    match goal with
    | Hd : forallb is_digit ?ds = true, Hw : forallb is_space ?ws = true,
      Hc : is_AZ ?c = true |- _ => exists ds, ws, c, b
    end.
    repeat split; auto. simpl. rewrite <- !app_assoc. simpl.
    rewrite <- !app_assoc. reflexivity.
  - intros (ds & ws & c & tail & -> & [Hd1 Hd2] & [Hw1 Hw2] & Hc).
    exists (ds ++ "."%char :: ws ++ [c]), tail.
    assert (E : (ds ++ "."%char :: ws ++ [c]) ++ tail
                = ds ++ "."%char :: ws ++ c :: tail).
    { rewrite <- app_assoc. simpl. rewrite <- app_assoc. reflexivity. }
    split; [now rewrite E|].
    apply matches_cat. exists [], (ds ++ "."%char :: ws ++ [c]).
    repeat split; [apply matches_bol; now rewrite E|].
    apply matches_cat. exists ds, ("."%char :: ws ++ [c]).
    repeat split; [now apply matches_plus_cls|].
    apply matches_cat. exists ["."%char], (ws ++ [c]).
    repeat split; [apply matches_cls; eexists; split; eauto|].
    apply matches_cat. exists ws, [c].
    repeat split; [now apply matches_plus_cls|].
    apply matches_cls. eauto.
Qed.

Lemma numbered_prefix_spec t :
  re_match numbered_prefix t = true <-> numbered_start t.
Proof.
  rewrite re_match_spec. unfold numbered_prefix, numbered_start, digits, blanks.
  cbn [cat]. split.
  - intros (a & b & Ht & H). inv_matches.
    match goal with
    | Hd : forallb is_digit ?ds = true, Hw : forallb is_space ?ws = true
      |- _ => exists ds, ws, b
    end.
    repeat split; auto. simpl. rewrite <- !app_assoc. reflexivity.
  - intros (ds & ws & tail & -> & [Hd1 Hd2] & [Hw1 Hw2]).
    exists (ds ++ "."%char :: ws), tail.
    assert (E : (ds ++ "."%char :: ws) ++ tail = ds ++ "."%char :: ws ++ tail).
    { rewrite <- app_assoc. reflexivity. }
    split; [now rewrite E|].
    apply matches_cat. exists [], (ds ++ "."%char :: ws).
    repeat split; [apply matches_bol; now rewrite E|].
    apply matches_cat. exists ds, ("."%char :: ws).
    repeat split; [now apply matches_plus_cls|].
    apply matches_cat. exists ["."%char], ws.
    repeat split; [apply matches_cls; eexists; split; eauto|].
    now apply matches_plus_cls.
Qed.

Lemma all_caps_spec raw :
  re_match all_caps (strip raw) = true <-> capitals_and_spaces (strip raw).
Proof.
  rewrite re_match_spec. unfold all_caps, capitals_and_spaces.
  cbn [cat]. split.
  - intros (a & b & Ht & H). inv_matches.
    pose proof (strip_eol _ _ _ Ht ltac:(assumption)) as ->.
    simpl in Ht. rewrite !app_nil_r in Ht. eauto 8.
  - intros (c & rest & Ht & Hc & Hne & Hr).
    exists (strip raw), []. split; [now rewrite app_nil_r|]. rewrite Ht.
    apply matches_cat. exists [], (c :: rest).
    repeat split; [apply matches_bol; now rewrite app_nil_r|].
    apply matches_cat. exists [c], rest.
    repeat split; [apply matches_cls; eauto|].
    apply matches_cat. exists rest, []. rewrite app_nil_r.
    repeat split; [now apply matches_plus_cls|now apply matches_eol].
Qed.

(** The group [(\s+[A-Z][a-z]+)] of the Title Case pattern. *)
Definition next_word : regex :=
  cat [Plus (Cls is_space); Cls is_AZ] (Plus (Cls is_az)).

Lemma next_word_spec n a b : Matches n next_word a b <-> spaced_word a.
Proof.
  unfold next_word, spaced_word, word, blanks. cbn [cat]. split.
  - intros H. inv_matches.
    match goal with
    | Hw : forallb is_space ?ws = true, Hc : is_AZ ?c = true,
      Hr : forallb is_az ?rest = true |- _ =>
        exists ws, (c :: rest); repeat split; auto; exists c, rest; auto
    end.
  - intros (ws & w & -> & [Hw1 Hw2] & c & rest & -> & Hc & Hne & Hr).
    apply matches_cat. exists ws, (c :: rest).
    repeat split; [now apply matches_plus_cls|].
    apply matches_cat. exists [c], rest.
    repeat split; [apply matches_cls; eauto|now apply matches_plus_cls].
Qed.

Lemma spaced_word_nonempty a : spaced_word a -> a <> [].
Proof.
  intros (ws & w & -> & [Hne _] & _). destruct ws; [congruence|discriminate].
Qed.

Lemma title_case_spec raw :
  re_match title_case (strip raw) = true <-> title_case_words (strip raw).
Proof.
  rewrite re_match_spec. unfold title_case, title_case_words, word.
  fold next_word. cbn [cat]. split.
  - intros (a & b & Ht & H). inv_matches.
    pose proof (strip_eol _ _ _ Ht ltac:(assumption)) as ->.
    match goal with
    | Hs : Matches _ (Star next_word) ?more _ |- _ =>
        apply matches_star with (L := spaced_word) in Hs;
          [|intros ? ?; apply next_word_spec];
        match goal with
        | Hc : is_AZ ?c = true, Hr : forallb is_az ?rest = true |- _ =>
            exists (c :: rest), more
        end
    end.
    repeat split; eauto 6.
    rewrite Ht. simpl. rewrite !app_nil_r. reflexivity.
  - intros (w & more & Ht & (c & rest & -> & Hc & Hne & Hr) & Hm).
    exists (strip raw), []. split; [now rewrite app_nil_r|]. rewrite Ht.
    apply matches_cat. exists [], ((c :: rest) ++ more).
    repeat split; [apply matches_bol; now rewrite app_nil_r|].
    apply matches_cat. exists [c], (rest ++ more).
    repeat split; [apply matches_cls; eauto|].
    apply matches_cat. exists rest, more.
    repeat split; [now apply matches_plus_cls|].
    apply matches_cat. exists more, []. rewrite app_nil_r.
    repeat split; [|now apply matches_eol].
    apply star_matches with (L := spaced_word); [|exact Hm].
    intros a b Ha. split; [now apply spaced_word_nonempty|].
    now apply next_word_spec.
Qed.

End Shapes.

Import Shapes.

Lemma text_eqb_eq (a b : str) : Text.eqb a b = true <-> a = b.
Proof.
  unfold Text.eqb. destruct (list_eq_dec ascii_dec a b); split;
    congruence.
Qed.

Lemma isupper_spec t : isupper t = true <-> all_uppercase t.
Proof.
  unfold isupper, all_uppercase.
  rewrite andb_true_iff, negb_true_iff, existsb_exists. split.
  - intros [Hl Hu]. split; [exact Hu|]. intros c Hc.
    destruct (is_lower c) eqn:E; [|reflexivity].
    assert (H : existsb is_lower t = true) by (apply existsb_exists; eauto).
    congruence.
  - intros [Hu Hl]. split; [|exact Hu].
    destruct (existsb is_lower t) eqn:E; [|reflexivity].
    apply existsb_exists in E as (c & Hc & E). rewrite (Hl c Hc) in E.
    discriminate.
Qed.

Lemma capital_not_digit c : is_AZ c = true -> is_digit c = false.
Proof.
  unfold is_AZ, is_digit, in_range.
  rewrite andb_true_iff, andb_false_iff, !Nat.leb_le, !Nat.leb_gt. lia.
Qed.

(** The line is discarded before any pattern is tried. *)
Definition rejected_outright (t : str) : Prop :=
  purely_numeric t \/ length t < 3 \/ 80 < length t \/
  lower t = lit "page" \/ lower t = lit "continued" \/ lower t = lit "...".

(** The line matches one of the three heading patterns. *)
Definition heading_shape (t : str) : Prop :=
  capitals_and_spaces t \/ numbered t \/ title_case_words t.

Lemma non_headings_spec t :
  existsb (Text.eqb (lower t)) non_headings = true <->
  lower t = lit "page" \/ lower t = lit "continued" \/ lower t = lit "...".
Proof.
  unfold non_headings. simpl existsb.
  rewrite !orb_true_iff, !text_eqb_eq. intuition discriminate.
Qed.

Lemma looks_like_heading_iff raw :
  _looks_like_heading (strip raw) = true <->
  ~ rejected_outright (strip raw) /\ heading_shape (strip raw).
Proof.
  set (t := strip raw). unfold _looks_like_heading, rejected_outright.
  destruct (Regex.re_match just_numbers t) eqn:E1.
  { split; [discriminate|]. intros [Hn _]. exfalso. apply Hn. left.
    now apply just_numbers_spec. }
  assert (H1 : ~ purely_numeric t).
  { intros H. apply just_numbers_spec in H. fold t in H. congruence. }
  destruct ((length t <? 3) || (80 <? length t)) eqn:E2.
  { split; [discriminate|]. intros [Hn _]. exfalso. apply Hn.
    apply orb_true_iff in E2 as [E2|E2]; apply Nat.ltb_lt in E2; auto. }
  apply orb_false_iff in E2 as [E2a E2b].
  apply Nat.ltb_ge in E2a, E2b.
  destruct (existsb (Text.eqb (lower t)) non_headings) eqn:E3.
  { split; [discriminate|]. intros [Hn _]. exfalso. apply Hn.
    apply non_headings_spec in E3. tauto. }
  assert (H3 : ~ (lower t = lit "page" \/ lower t = lit "continued" \/
                  lower t = lit "...")).
  { intros H. apply non_headings_spec in H. congruence. }
  unfold heading_patterns, heading_shape. simpl existsb.
  rewrite orb_false_r, !orb_true_iff. unfold t.
  rewrite all_caps_spec, numbered_heading_spec, title_case_spec.
  fold t. split.
  - intros H. split; [|tauto]. intros [N|[N|[N|N]]]; try tauto; lia.
  - tauto.
Qed.

(** C6.  For a trimmed OCR line [t]: a line that is purely numeric, shorter
    than 3 or longer than 80 characters, or equal to "page", "continued" or
    "..." without regard to case is rejected; any other line is accepted
    iff it is all capitals and spaces, a numbered heading, or Title-Case
    words; and an accepted line is H1 if it is all-uppercase and shorter
    than 30 characters, else H2 if it is a numbered heading, else H3. *)
Theorem ocr_heading_test raw :
  let t := strip raw in
  (rejected_outright t -> _looks_like_heading t = false) /\
  (~ rejected_outright t ->
   (_looks_like_heading t = true <-> heading_shape t)) /\
  (_looks_like_heading t = true ->
   (all_uppercase t /\ length t < 30 /\ _classify_ocr_heading t = H1) \/
   (~ (all_uppercase t /\ length t < 30) /\ numbered t /\
    _classify_ocr_heading t = H2) \/
   (~ (all_uppercase t /\ length t < 30) /\ ~ numbered t /\
    _classify_ocr_heading t = H3)).
Proof.
  intros t. pose proof (looks_like_heading_iff raw) as Hiff. fold t in Hiff.
  split; [|split].
  - intros Hr. destruct (_looks_like_heading t); [|reflexivity].
    destruct Hiff as [Hiff _]. destruct (Hiff eq_refl) as [Hn _]. tauto.
  - intros Hn. rewrite Hiff. tauto.
  - intros Hl. apply Hiff in Hl as [_ Hshape].
    unfold _classify_ocr_heading.
    destruct (isupper t && (length t <? 30)) eqn:E1.
    { apply andb_true_iff in E1 as [Eu El]. apply isupper_spec in Eu.
      apply Nat.ltb_lt in El. left. auto. }
    assert (N1 : ~ (all_uppercase t /\ length t < 30)).
    { intros [Hu Hlen]. apply isupper_spec in Hu. apply Nat.ltb_lt in Hlen.
      rewrite Hu, Hlen in E1. discriminate. }
    right.
    assert (Hstart : numbered_start t -> numbered t).
    { intros (ds & ws & tail & Ht & [Hne Hd] & _).
      destruct ds as [|d ds]; [congruence|]. simpl in Hd.
      apply andb_true_iff in Hd as [Hd _].
      destruct Hshape as [(c & rest & Hc & Hcap & _)|[Hnum|Hw]].
      - rewrite Ht in Hc. injection Hc as <- _.
        apply capital_not_digit in Hcap. congruence.
      - exact Hnum.
      - destruct Hw as (w & more & Hc & (c & rest & -> & Hcap & _) & _).
        rewrite Ht in Hc. injection Hc as <- _.
        apply capital_not_digit in Hcap. congruence. }
    destruct (Regex.re_match numbered_prefix t) eqn:E2.
    + left. apply numbered_prefix_spec in E2. auto.
    + right. repeat split; auto. intros (ds & ws & c & tail & Ht & Hd & Hw & _).
      assert (Hs : numbered_start t) by (exists ds, ws, (c :: tail); auto).
      apply numbered_prefix_spec in Hs. congruence.
Qed.

Lemma ocr_heading_test_witness :
  _looks_like_heading (strip (lit " 42 ")) = false /\
  (let t := strip (lit "1. Overview") in
   (all_uppercase t /\ length t < 30 /\ _classify_ocr_heading t = H1) \/
   (~ (all_uppercase t /\ length t < 30) /\ numbered t /\
    _classify_ocr_heading t = H2) \/
   (~ (all_uppercase t /\ length t < 30) /\ ~ numbered t /\
    _classify_ocr_heading t = H3)).
Proof.
  split.
  - apply (proj1 (ocr_heading_test (lit " 42 "))).
    left. split; [discriminate|reflexivity].
  - apply (proj2 (proj2 (ocr_heading_test (lit "1. Overview")))).
    reflexivity.
Defined.

(** The scenarios of the specification. *)
Example ocr_scenarios :
  _looks_like_heading (lit "INTRODUCTION") = true /\
  _classify_ocr_heading (lit "INTRODUCTION") = H1 /\
  _looks_like_heading (lit "1. Overview") = true /\
  _classify_ocr_heading (lit "1. Overview") = H2 /\
  _looks_like_heading (lit "42") = false.
Proof. repeat split; reflexivity. Qed.

Example layout_scenarios :
  _classify_headings [heading_ex 1 20; heading_ex 1 15; heading_ex 1 10]
  = Ok [with_level (heading_ex 1 20) H1; with_level (heading_ex 1 15) H2;
        with_level (heading_ex 1 10) H3].
Proof. vm_compute. reflexivity. Qed.

(* ################################################################## *)
(** * Further properties of the extractor *)

(** ** An extractor without a page width *)

Lemma not_centered_without_width bbox w :
  (w <= 0)%Q -> _is_text_centered bbox w tolerance_default = false.
Proof.
  intros Hw. unfold _is_text_centered, tolerance_default. apply Qltb_ge.
  apply Qle_trans with 0%Q; [lra|apply Qabs_nonneg].
Qed.

(** X14.  While [self.page_width] is zero (the value [__init__] stores) or
    negative, no span counts as centered: on a page that yields its text,
    [_extract_title] returns "Untitled Document" and every candidate of
    [_extract_headings_from_page] is bold and not centered. *)
Theorem nothing_centered_without_width self page page_num blocks :
  (page_width self <= 0)%Q ->
  get_text_blocks page = Ok blocks ->
  _extract_title page self = (self, Ok untitled) /\
  exists hs,
    _extract_headings_from_page page page_num self = (self, Ok hs) /\
    Forall (fun h => is_bold h = true /\ is_centered h = false) hs.
Proof.
  intros Hw Hb. split.
  - destruct (extract_title_run self page Hb) as (t & Ht & Hof).
    destruct Hof as [[_ ->]|(s & (l1 & l2 & _ & Hc & _) & _)]; [exact Ht|].
    unfold title_candidate in Hc.
    rewrite (@not_centered_without_width _ _ Hw), andb_false_r in Hc.
    discriminate.
  - assert (Hrun : _extract_headings_from_page page page_num self
                   = (self, Ok (map (heading_of (page_width self) page_num)
                                    (filter (heading_candidate (page_width self))
                                            (page_spans blocks))))).
    { unfold _extract_headings_from_page, mbind, get_self, lift, ret.
      rewrite Hb, heading_step_flat. reflexivity. }
    eexists. split; [exact Hrun|].
    apply Forall_forall. intros h Hh.
    apply in_map_iff in Hh as (s & <- & Hs).
    apply filter_In in Hs as [_ Hc]. unfold heading_candidate in Hc.
    unfold heading_of. simpl.
    rewrite (@not_centered_without_width _ _ Hw) in *.
    rewrite orb_false_r in Hc. apply andb_true_iff in Hc as [_ Hc]. auto.
Qed.

(** On a fresh extractor the centered title of [tied_titles] is not seen. *)
Lemma nothing_centered_without_width_witness :
  _extract_title tied_titles __init__ = (__init__, Ok untitled) /\
  exists hs,
    _extract_headings_from_page tied_titles 1 __init__ = (__init__, Ok hs) /\
    Forall (fun h => is_bold h = true /\ is_centered h = false) hs.
Proof.
  apply (@nothing_centered_without_width __init__ tied_titles 1
           (match get_text_blocks tied_titles with
            | Ok b => b | Raise _ => [] end)).
  - discriminate.
  - reflexivity.
Defined.

(** ** More on the classifier *)

Lemma fold_max_in xs : forall x,
  fold_max x xs = x \/ In (fold_max x xs) xs.
Proof.
  unfold fold_max. induction xs as [|a xs IH]; intros x; simpl; [auto|].
  destruct (IH (if Qltb x a then a else x)) as [H|H]; [|auto].
  rewrite H. destruct (Qltb x a); auto.
Qed.

Lemma fold_min_in xs : forall x,
  fold_min x xs = x \/ In (fold_min x xs) xs.
Proof.
  unfold fold_min. induction xs as [|a xs IH]; intros x; simpl; [auto|].
  destruct (IH (if Qltb a x then a else x)) as [H|H]; [|auto].
  rewrite H. destruct (Qltb a x); auto.
Qed.

(** The smallest and the largest size of a call are sizes of candidates. *)
Lemma classify_extremes h0 hs :
  exists mn mx,
    _classify_headings (h0 :: hs) = Ok (classified mn mx (h0 :: hs)) /\
    (forall h, In h (h0 :: hs) -> (mn <= font_size h <= mx)%Q) /\
    (exists a, In a (h0 :: hs) /\ font_size a = mn) /\
    (exists b, In b (h0 :: hs) /\ font_size b = mx).
Proof.
  unfold _classify_headings, classified.
  set (S := PySort.sorted font_size Qltb true (h0 :: hs)).
  assert (HS : forall h, In h (h0 :: hs) <-> In h S)
    by (intros h; symmetry; apply PySortFacts.sort_In).
  destruct S as [|s S'] eqn:ES; [destruct (proj1 (HS h0)); left; reflexivity|].
  simpl map at 1 2. cbn [py_max py_min bind].
  exists (fold_min (font_size s) (map font_size S')),
         (fold_max (font_size s) (map font_size S')).
  fold (fold_max (font_size s) (map font_size S')).
  fold (fold_min (font_size s) (map font_size S')).
  set (mn := fold_min _ _). set (mx := fold_max _ _).
  split; [|split; [|split]].
  - assert (E : (if Qeq_bool (mx - mn) 0
                 then map (fun h => with_level h (level_by_format h)) (s :: S')
                 else map (fun h => with_level h
                                      (level_by_size mn (mx - mn) h)) (s :: S'))
                = map (assign mn (mx - mn)) (s :: S')).
    { unfold assign. destruct (Qeq_bool (mx - mn) 0); reflexivity. }
    rewrite E. rewrite decorate_levels; [reflexivity|].
    apply Forall_forall. intros h Hh. apply in_map_iff in Hh as (h' & <- & _).
    apply assign_is_level.
  - intros h Hh. apply HS in Hh.
    destruct (fold_min_bound (map font_size S') (font_size s)) as [m1 m2].
    destruct (fold_max_bound (map font_size S') (font_size s)) as [M1 M2].
    destruct Hh as [<-|Hh]; [split; assumption|].
    split; [apply m2|apply M2]; apply in_map; exact Hh.
  - destruct (fold_min_in (map font_size S') (font_size s)) as [H|H].
    + exists s. split; [apply HS; left; reflexivity|now symmetry].
    + apply in_map_iff in H as (a & Ea & Ha).
      exists a. split; [apply HS; right; exact Ha|exact Ea].
  - destruct (fold_max_in (map font_size S') (font_size s)) as [H|H].
    + exists s. split; [apply HS; left; reflexivity|now symmetry].
    + apply in_map_iff in H as (a & Ea & Ha).
      exists a. split; [apply HS; right; exact Ha|exact Ea].
Qed.

(** A heading without its level. *)
Definition unlevel (h : HeadingInfo) : HeadingInfo := with_level h [].

Lemma classified_perm mn mx hs :
  Permutation (map unlevel (classified mn mx hs)) (map unlevel hs).
Proof.
  unfold classified.
  set (S := PySort.sorted font_size Qltb true hs).
  transitivity (map unlevel (map snd (map keyed (map (assign mn (mx - mn)) S)))).
  - apply Permutation_map, Permutation_map, PySortFacts.sort_perm.
  - rewrite !map_map. simpl.
    transitivity (map unlevel S).
    + apply Permutation_refl' . apply map_ext. intros h. reflexivity.
    + apply Permutation_map. apply PySortFacts.sort_perm.
Qed.

(** X1.  [_classify_headings] never raises; it returns the candidates it was
    given, each exactly once and changed in nothing but its level, and every
    level it sets is one of H1, H2, H3. *)
Theorem classify_keeps_candidates hs :
  exists out,
    _classify_headings hs = Ok out /\
    Permutation (map unlevel out) (map unlevel hs) /\
    Forall (fun h => is_level (level h)) out.
Proof.
  destruct hs as [|h0 hs].
  - exists []. repeat split; constructor.
  - destruct (classify_unfold h0 hs) as (mn & mx & E & _).
    exists (classified mn mx (h0 :: hs)). split; [exact E|].
    split; [apply classified_perm|].
    apply Forall_forall. intros h Hh.
    apply classified_In in Hh as (a0 & _ & ->). apply assign_is_level.
Qed.

(** X2.  When all candidates of a call have the same font size, the level
    of each depends on its style alone: H1 if bold and centered, H2 if bold
    only, H3 otherwise. *)
Theorem classify_same_size_by_format hs out :
  _classify_headings hs = Ok out ->
  (forall a b, In a hs -> In b hs -> (font_size a == font_size b)%Q) ->
  forall h, In h out -> level h = level_by_format h.
Proof.
  intros Hc Heq h Hh.
  destruct hs as [|h0 hs]; [injection Hc as <-; destruct Hh|].
  destruct (classify_extremes h0 hs)
    as (mn & mx & E & _ & (a & Ha & <-) & (b & Hb & <-)).
  rewrite E in Hc. injection Hc as <-.
  apply classified_In in Hh as (c & _ & ->).
  unfold assign. simpl.
  assert (Z : Qeq_bool (font_size b - font_size a) 0 = true).
  { apply Qeq_bool_iff. rewrite (Heq b a Hb Ha). ring. }
  rewrite Z. reflexivity.
Qed.

Definition styled (sz : Q) (b c : bool) : HeadingInfo :=
  {| level := []; text := lit "Heading"; page := 1; font_size := sz;
     is_bold := b; is_centered := c |}.

Lemma classify_same_size_by_format_witness :
  level (with_level (styled 12 true false) H2)
  = level_by_format (with_level (styled 12 true false) H2).
Proof.
  apply (@classify_same_size_by_format
           [styled 12 false true; styled 12 true false; styled 12 true true]
           [with_level (styled 12 true true) H1;
            with_level (styled 12 true false) H2;
            with_level (styled 12 false true) H3]).
  - vm_compute. reflexivity.
  - intros a b [<-|[<-|[<-|[]]]] [<-|[<-|[<-|[]]]]; reflexivity.
  - simpl. auto.
Defined.

(** X3.  When the candidates of a call differ in font size, every candidate
    of the largest size is H1 and every candidate of the smallest size is
    H3. *)
Theorem classify_extreme_sizes hs out small large :
  _classify_headings hs = Ok out ->
  In small hs -> In large hs -> (font_size small < font_size large)%Q ->
  forall h, In h out ->
    ((forall x, In x hs -> (font_size x <= font_size h)%Q) -> level h = H1) /\
    ((forall x, In x hs -> (font_size h <= font_size x)%Q) -> level h = H3).
Proof.
  intros Hc Hs Hl Hlt h Hh.
  destruct hs as [|h0 hs]; [destruct Hs|].
  destruct (classify_extremes h0 hs)
    as (mn & mx & E & Hb & (a & Ha & Ea) & (b & Hbi & Eb)).
  rewrite E in Hc. injection Hc as <-.
  apply classified_In in Hh as (c & Hcin & ->).
  assert (Hrg : (0 < mx - mn)%Q).
  { destruct (Hb _ Hs) as [H1 _]. destruct (Hb _ Hl) as [_ H2]. lra. }
  unfold assign. simpl.
  destruct (Qeq_bool (mx - mn) 0) eqn:Z.
  { apply Qeq_bool_iff in Z. lra. }
  unfold level_by_size. split; intros Hall.
  - assert (Hc1 : (mx <= font_size c)%Q) by (rewrite <- Eb; apply Hall, Hbi).
    assert (T : Qltb (7 # 10) ((font_size c - mn) / (mx - mn)) = true).
    { apply Qltb_lt. apply Qlt_shift_div_l; [exact Hrg|]. lra. }
    rewrite T. reflexivity.
  - assert (Hc1 : (font_size c <= mn)%Q) by (rewrite <- Ea; apply Hall, Ha).
    assert (T1 : Qltb (7 # 10) ((font_size c - mn) / (mx - mn)) = false).
    { apply Qltb_ge. apply Qle_shift_div_r; [exact Hrg|]. lra. }
    assert (T2 : Qltb (4 # 10) ((font_size c - mn) / (mx - mn)) = false).
    { apply Qltb_ge. apply Qle_shift_div_r; [exact Hrg|]. lra. }
    rewrite T1, T2. reflexivity.
Qed.

Lemma classify_extreme_sizes_witness :
  let h := with_level (heading_ex 1 20) H1 in
  ((forall x, In x [heading_ex 1 10; heading_ex 1 20; heading_ex 2 15] ->
              (font_size x <= font_size h)%Q) -> level h = H1) /\
  ((forall x, In x [heading_ex 1 10; heading_ex 1 20; heading_ex 2 15] ->
              (font_size h <= font_size x)%Q) -> level h = H3).
Proof.
  apply (@classify_extreme_sizes
           [heading_ex 1 10; heading_ex 1 20; heading_ex 2 15]
           [with_level (heading_ex 1 20) H1; with_level (heading_ex 1 10) H3;
            with_level (heading_ex 2 15) H2]
           (heading_ex 1 10) (heading_ex 1 20)).
  - vm_compute. reflexivity.
  - simpl. auto.
  - simpl. auto.
  - reflexivity.
  - simpl. auto.
Defined.

(** ** More on the layout pipeline *)

Lemma enumerate_In {A} (l : list A) : forall i n x,
  In (n, x) (enumerate i l) -> i <= n < i + length l.
Proof.
  induction l as [|y l IH]; intros i n x; simpl; [tauto|].
  intros [H|H]; [injection H as <- _; lia|]. apply IH in H. lia.
Qed.

Lemma classify_member hs out h :
  _classify_headings hs = Ok out -> In h out ->
  exists a0, In a0 hs /\ unlevel h = unlevel a0.
Proof.
  intros Hc Hh. destruct hs as [|h0 hs]; [injection Hc as <-; destruct Hh|].
  destruct (classify_unfold h0 hs) as (mn & mx & E & _).
  rewrite E in Hc. injection Hc as <-.
  apply classified_In in Hh as (a0 & Ha0 & ->). exists a0. auto.
Qed.

Lemma classify_member_of hs out a0 :
  _classify_headings hs = Ok out -> In a0 hs ->
  exists h, In h out /\ unlevel h = unlevel a0.
Proof.
  intros Hc Ha. destruct hs as [|h0 hs]; [destruct Ha|].
  destruct (classify_unfold h0 hs) as (mn & mx & E & _).
  rewrite E in Hc. injection Hc as <-.
  exists (assign mn (mx - mn) a0). split; [|reflexivity].
  apply classified_In. eauto.
Qed.

Lemma collect_inv d : forall i acc self s' hs,
  for_each (enumerate i d)
    (fun '(page_num, page) headings =>
       page_headings <~ _extract_headings_from_page page (page_num + 1) ;;
       ret (headings ++ page_headings))
    acc self = (s', Ok hs) ->
  exists bs, readable d bs.
Proof.
  induction d as [|p d IH]; intros i acc self s' hs; simpl.
  - intros _. exists []. constructor.
  - unfold mbind at 1. unfold mbind at 1.
    destruct (get_text_blocks p) as [b|e] eqn:Eb.
    + rewrite (extract_headings_run self p i Eb). unfold ret at 1.
      intros H. apply IH in H as (bs & Hbs). exists (b :: bs).
      constructor; assumption.
    + unfold _extract_headings_from_page, mbind, get_self, lift. rewrite Eb.
      discriminate.
Qed.

(** What a successful run of the layout pipeline went through. *)
Lemma layout_success_inv d self self' out :
  _extract_layout_based (Ok d) self = (self', Ok out) ->
  exists first rest bs t cl,
    d = first :: rest /\ readable d bs /\
    out = {| title := t; outline := map to_entry cl |} /\
    _classify_headings (doc_candidates (rect_width first) bs) = Ok cl.
Proof.
  intros H. destruct d as [|first rest]; [discriminate H|].
  assert (Hr : exists bs, readable (first :: rest) bs).
  { revert H.
    unfold _extract_layout_based, mbind, lift, set_doc, set_page_size, raise.
    destruct (_extract_title first _) as [s1 [t|e]]; [|discriminate].
    destruct (collect_headings (first :: rest) s1) as [s2 [hs|e]] eqn:Ec;
      [|discriminate].
    intros _. unfold collect_headings in Ec. now apply collect_inv in Ec. }
  destruct Hr as (bs & Hr).
  destruct (layout_run self Hr) as (t & cl & Hrun & Hc).
  pose proof (eq_trans (eq_sym Hrun) H) as E. injection E as _ <-.
  exists first, rest, bs, t, cl. auto.
Qed.

(** X4.  The layout pipeline returns an outline exactly for the documents
    that have at least one page and whose pages all yield their text. *)
Theorem layout_succeeds_iff d self :
  (exists self' out, _extract_layout_based (Ok d) self = (self', Ok out)) <->
  (d <> [] /\ exists bs, readable d bs).
Proof.
  split.
  - intros (self' & out & H).
    apply layout_success_inv in H
      as (first & rest & bs & t & cl & -> & Hr & _ & _).
    split; [discriminate|eauto].
  - intros [Hne (bs & Hr)]. destruct d as [|first rest]; [congruence|].
    destruct (layout_run self Hr) as (t & cl & Hrun & _). eauto.
Qed.

(** X5.  Every entry of a layout outline carries a trimmed text of 3 to 100
    characters and the number of a page of the document, counted from 1. *)
Theorem layout_entries_bounds d self self' out e :
  _extract_layout_based (Ok d) self = (self', Ok out) ->
  In e (outline out) ->
  3 <= length (entry_text e) <= 100 /\
  1 <= entry_page e <= length d /\
  exists raw, entry_text e = strip raw.
Proof.
  intros H He.
  apply layout_success_inv in H
    as (first & rest & bs & t & cl & -> & Hr & -> & Hc).
  simpl in He. apply in_map_iff in He as (h & <- & Hh).
  destruct (@classify_member _ _ _ Hc Hh) as (a0 & Ha0 & Eu).
  assert (Et : text h = text a0) by (injection Eu; auto).
  assert (Ep : page h = page a0) by (injection Eu; auto).
  unfold to_entry. simpl. rewrite Et, Ep.
  unfold doc_candidates in Ha0. apply in_flat_map in Ha0 as ([n b] & Hn & Ha0).
  unfold page_candidates in Ha0. simpl in Ha0.
  apply in_map_iff in Ha0 as (s & <- & Hs).
  apply filter_In in Hs as [_ Hs]. apply heading_candidate_iff in Hs.
  apply enumerate_In in Hn. simpl.
  rewrite <- (Forall2_length Hr) in Hn. simpl in Hn.
  repeat split; try lia; try tauto. eauto.
Qed.

Lemma layout_entries_bounds_witness :
  3 <= length (entry_text (entry H1 "Overview" 1)) <= 100 /\
  1 <= entry_page (entry H1 "Overview" 1) <= length two_headings /\
  exists raw, entry_text (entry H1 "Overview" 1) = strip raw.
Proof.
  apply (@layout_entries_bounds two_headings __init__
           (fst (_extract_layout_based (Ok two_headings) __init__))
           {| title := untitled;
              outline := [entry H1 "Overview" 1; entry H3 "Remarks" 1] |}).
  - vm_compute. reflexivity.
  - simpl. auto.
Defined.

(** X6.  When the first page has a title candidate and the title found has
    3 to 100 characters, the title is also a heading of the outline, on
    page 1: the title span passes the heading filter as well. *)
Theorem layout_title_is_a_heading first rest blocks self self' out s :
  _extract_layout_based (Ok (first :: rest)) self = (self', Ok out) ->
  get_text_blocks first = Ok blocks ->
  In s (page_spans blocks) ->
  title_candidate (rect_width first) s = true ->
  3 <= length (title out) <= 100 ->
  exists e, In e (outline out) /\
            entry_text e = title out /\ entry_page e = 1.
Proof.
  intros H Hb Hs Hcand Hlen.
  destruct (layout_title_inv _ _ _ H) as (s1 & Ht).
  destruct (extract_title_run (layout_state first rest) first Hb)
    as (t & Ht' & Hof).
  rewrite Ht' in Ht. injection Ht as _ Et. subst t.
  apply layout_success_inv in H
    as (first' & rest' & bs & t & cl & Ed & Hr & -> & Hc).
  injection Ed as <- <-. simpl in *.
  destruct Hof as [[Hnone _]|(s' & (l1 & l2 & Ess & Hc' & _) & Et)].
  { rewrite (Hnone s Hs) in Hcand. discriminate. }
  inversion Hr as [|p b d bs' Hp Hd]; subst.
  rewrite Hb in Hp. injection Hp as <-.
  assert (Hin : In s' (page_spans blocks))
    by (rewrite Ess; apply in_elt).
  assert (Hh : heading_candidate (rect_width first) s' = true).
  { apply title_candidate_iff in Hc' as (_ & Hsz & Hbold & _).
    apply heading_candidate_iff.
    repeat split; try lia; [|auto]. lra. }
  assert (Ha0 : In (heading_of (rect_width first) 1 s')
                   (doc_candidates (rect_width first) (blocks :: bs'))).
  { unfold doc_candidates. simpl. apply in_or_app. left.
    unfold page_candidates. simpl. apply in_map, filter_In. auto. }
  destruct (@classify_member_of _ _ _ Hc Ha0) as (h & Hh' & Eu).
  exists (to_entry h). split; [now apply in_map|].
  unfold to_entry. simpl.
  assert (E1 : text h = strip (span_text s')) by (injection Eu; auto).
  assert (E2 : page h = 1) by (injection Eu; auto).
  rewrite E1, E2. auto.
Qed.

Lemma layout_title_is_a_heading_witness :
  exists e,
    In e [entry H1 "Annual Report" 1; entry H1 "Second Volume" 1;
          entry H3 "Draft" 1] /\
    entry_text e = lit "Annual Report" /\ entry_page e = 1.
Proof.
  apply (@layout_title_is_a_heading tied_titles []
           (match get_text_blocks tied_titles with Ok b => b | Raise _ => [] end)
           __init__
           (fst (_extract_layout_based (Ok [tied_titles]) __init__))
           {| title := lit "Annual Report";
              outline := [entry H1 "Annual Report" 1;
                          entry H1 "Second Volume" 1; entry H3 "Draft" 1] |}
           (mk_span "Annual Report" 24 "Helvetica-Bold" 200 400)).
  - vm_compute. reflexivity.
  - reflexivity.
  - simpl. auto.
  - reflexivity.
  - vm_compute. split; [apply Nat.leb_le|apply Nat.leb_le]; reflexivity.
Defined.

(** X7.  The outcome of the layout pipeline and of [extract_outline] does
    not depend on the attributes the extractor holds before the call: an
    extractor can be reused from one document to the next. *)
Theorem extraction_ignores_prior_state pdf self self0 :
  snd (_extract_layout_based pdf self) = snd (_extract_layout_based pdf self0)
  /\ snd (extract_outline pdf self) = snd (extract_outline pdf self0).
Proof.
  assert (HL : forall s, _extract_layout_based pdf s
                 = match pdf with
                   | Ok (first :: rest) =>
                       _extract_layout_based pdf (layout_state first rest)
                   | _ => (fst (_extract_layout_based pdf s),
                           snd (_extract_layout_based pdf __init__))
                   end).
  { intros s. destruct pdf as [[|first rest]|e]; reflexivity. }
  assert (H1 : snd (_extract_layout_based pdf self)
               = snd (_extract_layout_based pdf self0)).
  { rewrite (HL self), (HL self0).
    destruct pdf as [[|first rest]|e]; reflexivity. }
  split; [exact H1|].
  unfold extract_outline, try_except.
  destruct (_extract_layout_based pdf self) as [s1 [o1|e1]];
  destruct (_extract_layout_based pdf self0) as [s2 [o2|e2]];
    simpl in H1; try discriminate.
  - exact H1.
  - destruct (ocr_state_free pdf) as (r & Hr). now rewrite !Hr.
Qed.

(** ** More on the OCR pipeline *)

Lemma split_lines_nonempty s : split_lines s <> [].
Proof.
  destruct s as [|c s]; simpl; [discriminate|].
  destruct (Ascii.eqb c newline); [discriminate|].
  destruct (split_lines s); discriminate.
Qed.

(** The test of the title loop on a trimmed line. *)
Definition title_line (line : str) : bool :=
  truthy line && (3 <? length line) && (length line <? 100).

(** The title after the page with index [i], coming from title [t]. *)
Definition title_after (i : nat) (p : Page) (t : str) : str :=
  if i =? 0
  then match find title_line (ocr_lines p) with
       | Some line => line
       | None => t
       end
  else t.

Definition renderable (p : Page) : Prop := exists pix, get_pixmap p = Ok pix.

Lemma ocr_page_run n p pix all_text t self :
  get_pixmap p = Ok pix ->
  ocr_page n p (all_text, t) self
  = (self, Ok (all_text ++ page_lines (n, p), title_after n p t)).
Proof.
  intros Hp. unfold ocr_page, mbind, lift, ret, page_lines, title_after,
    ocr_lines.
  simpl fst. simpl snd. rewrite Hp.
  destruct (image_to_string pix) as [ocr_text|e].
  - rewrite collect_lines_spec. unfold first_substantial. fold title_line.
    destruct (split_lines ocr_text) eqn:E;
      [now apply split_lines_nonempty in E|].
    rewrite andb_true_r. reflexivity.
  - simpl. rewrite app_nil_r. destruct (n =? 0); reflexivity.
Qed.

(** The title the loop over the pages ends with. *)
Definition final_title (i : nat) (d : list Page) (t : str) : str :=
  match d with
  | p :: _ => title_after i p t
  | [] => t
  end.

Lemma final_title_later i d t : final_title (S i) d t = t.
Proof. destruct d; reflexivity. Qed.

Lemma ocr_loop_run d :
  Forall renderable d ->
  forall i all_text t self,
    for_each (enumerate i d)
      (fun '(page_num, page) st => ocr_page page_num page st)
      (all_text, t) self
    = (self, Ok (all_text ++ flat_map page_lines (enumerate i d),
                 final_title i d t)).
Proof.
  induction 1 as [|p d (pix & Hp) Hd IH]; intros i all_text t self;
    cbn [enumerate for_each flat_map final_title].
  - unfold ret. now rewrite app_nil_r.
  - unfold mbind at 1. rewrite (@ocr_page_run i _ _ all_text t self Hp).
    rewrite IH, final_title_later, <- app_assoc. reflexivity.
Qed.

Lemma ocr_loop_inv d : forall i st self s' st',
  for_each (enumerate i d)
    (fun '(page_num, page) st => ocr_page page_num page st)
    st self = (s', Ok st') ->
  Forall renderable d.
Proof.
  induction d as [|p d IH]; intros i [all_text t] self s' st';
    cbn [enumerate for_each]; [constructor|].
  unfold mbind at 1.
  destruct (get_pixmap p) as [pix|e] eqn:Hp.
  - rewrite (@ocr_page_run i _ _ all_text t self Hp).
    intros H. apply IH in H. constructor; [exists pix; exact Hp|exact H].
  - unfold ocr_page, mbind, lift. rewrite Hp. discriminate.
Qed.

Definition ocr_outline_of (d : Document) : DocumentOutline :=
  {| title := final_title 0 d untitled;
     outline := flat_map (fun np => page_entries (fst np) (snd np))
                         (enumerate 0 d) |}.

Lemma ocr_run p d self :
  Forall renderable (p :: d) ->
  exists self', _extract_ocr_based (Ok (p :: d)) self
                = (self', Ok (ocr_outline_of (p :: d))).
Proof.
  intros Hr. unfold _extract_ocr_based, mbind, lift, set_doc, raise.
  rewrite (ocr_loop_run Hr). unfold ret, ocr_outline_of.
  change ([] ++ flat_map page_lines (enumerate 0 (p :: d)))
    with (flat_map page_lines (enumerate 0 (p :: d))).
  rewrite detect_headings_spec, entries_of_lines. eauto.
Qed.

Lemma ocr_success_inv pdf self self' out :
  _extract_ocr_based pdf self = (self', Ok out) ->
  exists p d, pdf = Ok (p :: d) /\ Forall renderable (p :: d) /\
              out = ocr_outline_of (p :: d).
Proof.
  intros H. destruct pdf as [[|p d]|e]; try discriminate H.
  assert (Hr : Forall renderable (p :: d)).
  { revert H. unfold _extract_ocr_based, mbind, lift, set_doc, raise.
    destruct (for_each _ _ _ _) as [s1 [st|e]] eqn:E; [|discriminate].
    intros _. now apply ocr_loop_inv in E. }
  destruct (ocr_run self Hr) as (s & Hs).
  pose proof (eq_trans (eq_sym Hs) H) as E. injection E as _ <-.
  exists p, d. auto.
Qed.

(** X8.  The OCR pipeline returns an outline exactly for the documents that
    have at least one page and whose pages can all be rendered; a page on
    which recognition itself fails does not stop it. *)
Theorem ocr_succeeds_iff d self :
  (exists self' out, _extract_ocr_based (Ok d) self = (self', Ok out)) <->
  (d <> [] /\ Forall renderable d).
Proof.
  split.
  - intros (self' & out & H).
    apply ocr_success_inv in H as (p & d' & E & Hr & _).
    injection E as ->. split; [discriminate|exact Hr].
  - intros [Hne Hr]. destruct d as [|p d]; [congruence|].
    destruct (ocr_run self Hr) as (s & Hs). eauto.
Qed.

(** X9.  The title of an OCR extraction is the first trimmed line of the
    first page that has more than 3 and fewer than 100 characters; without
    such a line, or when recognition fails on the first page, it is
    "Untitled Document".  Later pages never change it. *)
Theorem ocr_title_from_first_page p rest self self' out :
  _extract_ocr_based (Ok (p :: rest)) self = (self', Ok out) ->
  title out = match find title_line (ocr_lines p) with
              | Some line => line
              | None => untitled
              end.
Proof.
  intros H. apply ocr_success_inv in H as (p' & d' & E & _ & ->).
  injection E as <- <-. reflexivity.
Qed.

Lemma ocr_title_from_first_page_witness :
  lit "Summary"
  = match find title_line
            (ocr_lines (scanned_page 600
               (unlines ["Summary"; "INTRODUCTION"; "42"]%string))) with
    | Some line => line
    | None => untitled
    end.
Proof.
  apply (@ocr_title_from_first_page _
           [scanned_page 600
              (unlines ["1. Overview"; "lower case line"]%string)]
           __init__ (fst (_extract_ocr_based (Ok two_scans) __init__))
           {| title := lit "Summary"; outline := two_scans_outline |}).
  vm_compute. reflexivity.
Defined.

Lemma looks_like_heading_length t :
  _looks_like_heading t = true -> 3 <= length t <= 80.
Proof.
  unfold _looks_like_heading.
  destruct (Regex.re_match just_numbers t); [discriminate|].
  destruct (Nat.ltb_spec (length t) 3), (Nat.ltb_spec 80 (length t));
    simpl; try discriminate.
  intros _. lia.
Qed.

Lemma classify_ocr_is_level t : is_level (_classify_ocr_heading t).
Proof.
  unfold _classify_ocr_heading, is_level.
  destruct (isupper t && (length t <? 30)); auto.
  destruct (Regex.re_match numbered_prefix t); auto.
Qed.

(** X10.  Every entry of an OCR outline is a trimmed line of 3 to 80
    characters that passes [_looks_like_heading]; its level is the one
    [_classify_ocr_heading] gives that line, one of H1, H2, H3; its page is
    a page of the document, counted from 1. *)
Theorem ocr_entries_are_headings d self self' out e :
  _extract_ocr_based (Ok d) self = (self', Ok out) ->
  In e (outline out) ->
  _looks_like_heading (entry_text e) = true /\
  3 <= length (entry_text e) <= 80 /\
  (exists raw, entry_text e = strip raw) /\
  entry_level e = _classify_ocr_heading (entry_text e) /\
  is_level (entry_level e) /\
  1 <= entry_page e <= length d.
Proof.
  intros H He. apply ocr_success_inv in H as (p & d' & E & _ & ->).
  injection E as ->.
  change (In e (flat_map (fun np => page_entries (fst np) (snd np))
                         (enumerate 0 (p :: d')))) in He.
  apply in_flat_map in He as ([n q] & Hn & He).
  pose proof (enumerate_In _ _ _ _ Hn) as Hb.
  assert (Hq : In q (p :: d')).
  { clear - Hn. revert Hn. generalize 0. generalize (p :: d').
    induction l as [|y l IH]; intros i; simpl; [tauto|].
    intros [H|H]; [injection H as _ <-; auto|right; eapply IH; eauto]. }
  unfold page_entries in He. simpl fst in He. simpl snd in He.
  apply in_map_iff in He as (l & <- & Hl).
  apply filter_In in Hl as [Hl Hok].
  apply andb_true_iff in Hok as [_ Hlooks].
  unfold entry_of, line_at. simpl.
  repeat split; auto.
  - apply (looks_like_heading_length _ Hlooks).
  - apply (looks_like_heading_length _ Hlooks).
  - unfold ocr_lines in Hl.
    destruct (get_pixmap q) as [pix|]; [|destruct Hl].
    destruct (image_to_string pix); [|destruct Hl].
    apply in_map_iff in Hl as (raw & <- & _). eauto.
  - apply classify_ocr_is_level.
  - lia.
  - simpl in Hb. lia.
Qed.

Lemma ocr_entries_are_headings_witness :
  let e := entry H2 "1. Overview" 2 in
  _looks_like_heading (entry_text e) = true /\
  3 <= length (entry_text e) <= 80 /\
  (exists raw, entry_text e = strip raw) /\
  entry_level e = _classify_ocr_heading (entry_text e) /\
  is_level (entry_level e) /\
  1 <= entry_page e <= length two_scans.
Proof.
  apply (@ocr_entries_are_headings two_scans __init__
           (fst (_extract_ocr_based (Ok two_scans) __init__))
           {| title := lit "Summary"; outline := two_scans_outline |}).
  - vm_compute. reflexivity.
  - simpl. auto.
Defined.

(** X11.  A trimmed line that [_looks_like_heading] accepts begins with a
    capital letter A-Z or with a digit: a line that starts with a small
    letter or with punctuation is never a heading. *)
Theorem accepted_line_starts_with_capital_or_digit raw :
  _looks_like_heading (strip raw) = true ->
  exists c rest, strip raw = c :: rest /\
                 (is_AZ c = true \/ is_digit c = true).
Proof.
  intros H. apply looks_like_heading_iff in H as [_ Hshape].
  destruct Hshape as [(c & rest & E & Hc & _)|[Hn|Hw]].
  - exists c, rest. auto.
  - destruct Hn as (ds & ws & c & tail & E & [Hne Hd] & _).
    destruct ds as [|d ds]; [congruence|]. simpl in Hd.
    apply andb_true_iff in Hd as [Hd _].
    exists d, (ds ++ "."%char :: ws ++ c :: tail). auto.
  - destruct Hw as (w & more & E & (c & rest & -> & Hc & _) & _).
    exists c, (rest ++ more). auto.
Qed.

Lemma accepted_line_starts_with_capital_or_digit_witness :
  exists c rest, strip (lit "  1. Overview ") = c :: rest /\
                 (is_AZ c = true \/ is_digit c = true).
Proof.
  apply (accepted_line_starts_with_capital_or_digit (lit "  1. Overview ")).
  reflexivity.
Defined.

(** ** Titles *)

Lemma title_of_nonempty w ss t : title_of w ss t -> t <> [].
Proof.
  intros [[_ ->]|(s & (l1 & l2 & _ & Hc & _) & ->)]; [discriminate|].
  apply title_candidate_iff in Hc. tauto.
Qed.

Lemma layout_title_nonempty pdf self self' out :
  _extract_layout_based pdf self = (self', Ok out) -> title out <> [].
Proof.
  intros H. destruct pdf as [d|e]; [|discriminate H].
  pose proof H as H'.
  apply layout_success_inv in H'
    as (first & rest & bs & t & cl & -> & Hr & _ & _).
  inversion Hr as [|p b d bs' Hp Hd]; subst.
  destruct (layout_title_inv _ _ _ H) as (s1 & Ht).
  destruct (extract_title_run (layout_state first rest) first Hp)
    as (t' & Ht' & Hof).
  rewrite Ht' in Ht. injection Ht as _ <-.
  eapply title_of_nonempty; eauto.
Qed.

Lemma ocr_title_nonempty pdf self self' out :
  _extract_ocr_based pdf self = (self', Ok out) -> title out <> [].
Proof.
  intros H. apply ocr_success_inv in H as (p & d & _ & _ & ->).
  simpl. unfold title_after. simpl.
  destruct (find title_line (ocr_lines p)) as [l|] eqn:E; [|discriminate].
  apply find_some in E as [_ E]. unfold title_line in E.
  destruct l; [discriminate|discriminate].
Qed.

(** X12.  No extraction returns an empty title: the layout pipeline, the
    OCR pipeline and [extract_outline] each give "Untitled Document" or a
    non-empty trimmed text. *)
Theorem titles_are_never_empty pdf self self' out :
  _extract_layout_based pdf self = (self', Ok out) \/
  _extract_ocr_based pdf self = (self', Ok out) \/
  extract_outline pdf self = (self', Ok out) ->
  title out <> [].
Proof.
  intros [H|[H|H]].
  - eapply layout_title_nonempty; eauto.
  - eapply ocr_title_nonempty; eauto.
  - unfold extract_outline, try_except in H.
    destruct (_extract_layout_based pdf self) as [s1 [o|e]] eqn:E.
    + injection H as _ <-. eapply layout_title_nonempty; eauto.
    + eapply ocr_title_nonempty; eauto.
Qed.

Lemma titles_are_never_empty_witness : lit "Summary" <> [].
Proof.
  apply (@titles_are_never_empty (Ok scanned) __init__
           (fst (extract_outline (Ok scanned) __init__))
           {| title := lit "Summary";
              outline := [entry H3 "Summary" 1; entry H1 "INTRODUCTION" 1;
                          entry H2 "1. Overview" 1] |}).
  right. right. vm_compute. reflexivity.
Defined.

(** X13.  [extract_outline] returns an outline exactly when the document has
    at least one page and either every page yields its text or every page
    can be rendered for OCR. *)
Theorem extract_outline_succeeds_iff d self :
  (exists self' out, extract_outline (Ok d) self = (self', Ok out)) <->
  (d <> [] /\ ((exists bs, readable d bs) \/ Forall renderable d)).
Proof.
  unfold extract_outline, try_except. split.
  - intros (self' & out & H).
    destruct (_extract_layout_based (Ok d) self) as [s1 [o|e]] eqn:E.
    + apply layout_success_inv in E
        as (first & rest & bs & t & cl & -> & Hr & _ & _).
      split; [discriminate|eauto].
    + apply ocr_success_inv in H as (p & d' & Ed & Hr & _).
      injection Ed as ->. split; [discriminate|auto].
  - intros [Hne H].
    destruct (_extract_layout_based (Ok d) self) as [s1 [o|e]] eqn:E;
      [eauto|].
    destruct d as [|p d]; [congruence|].
    destruct H as [(bs & Hr)|Hr].
    + destruct (layout_run self Hr) as (t & cl & Hrun & _).
      pose proof (eq_trans (eq_sym Hrun) E) as X. inversion X.
    + destruct (ocr_run s1 Hr) as (s & Hs). eauto.
Qed.

(** ** Runs on the sample documents *)

Lemma layout_succeeds_iff_witness :
  exists self' out,
    _extract_layout_based (Ok wide_second_page) __init__ = (self', Ok out).
Proof.
  apply (proj2 (layout_succeeds_iff wide_second_page __init__)).
  split; [discriminate|].
  eexists. repeat constructor.
Defined.

Lemma ocr_succeeds_iff_witness :
  exists self' out,
    _extract_ocr_based (Ok two_scans) __init__ = (self', Ok out).
Proof.
  apply (proj2 (ocr_succeeds_iff two_scans __init__)).
  split; [discriminate|].
  repeat constructor; eexists; reflexivity.
Defined.

Lemma extract_outline_succeeds_iff_witness :
  exists self' out, extract_outline (Ok scanned) __init__ = (self', Ok out).
Proof.
  apply (proj2 (extract_outline_succeeds_iff scanned __init__)).
  split; [discriminate|]. right.
  repeat constructor; eexists; reflexivity.
Defined.
